(** * The page-path tree of rem: parsing, descendants, create, rename, delete

    A shallow embedding of [src/nav-types.ts] and of the three page buttons
    ([AddPageButton.handleAdd], [RenamePageButton.handleRename],
    [DeletePageButton.handleDelete]), followed by the properties the
    specification states about them.

    Strings are sequences of 8-bit code units ([string]); every string
    operation of the source is written out on them in module [JS].

    The second half covers what uses these functions: the list of children,
    the arrow keys and the child counts of the navigation panel (nav.tsx),
    the breadcrumb (Breadcrumb.tsx), the keyboard shortcuts (Controls.tsx,
    stores.ts) and the search of the command palette. *)

From Stdlib Require Import List String Ascii Bool Arith Lia ZArith.
From Stdlib Require Import Numbers.DecimalString.
From Stdlib Require Import Sorting.Sorted Sorting.Permutation.
From Stdlib Require Import QArith Lqa.
Import ListNotations.
Close Scope Q_scope.
Open Scope string_scope.

(* ================================================================= *)
(** ** The string and array operations the source calls *)

Module JS.

(** Truthiness of a string: only the empty string is falsy. *)
Definition truthy (s : string) : bool :=
  match s with
  | "" => false
  | String _ _ => true
  end.

(** [s.slice(1)]. *)
Definition slice1 (s : string) : string :=
  match s with
  | "" => ""
  | String _ t => t
  end.

(** [s.startsWith(p)]. *)
Definition startsWith (s p : string) : bool := String.prefix p s.

(** The white space and line terminators among the 8-bit code units: tab,
    line feed, vertical tab, form feed, carriage return, space and
    no-break space. *)
Definition isWhiteSpace (c : ascii) : bool :=
  let n := nat_of_ascii c in
  Nat.eqb n 9 || Nat.eqb n 10 || Nat.eqb n 11 || Nat.eqb n 12
  || Nat.eqb n 13 || Nat.eqb n 32 || Nat.eqb n 160.

Fixpoint trimStart (s : string) : string :=
  match s with
  | "" => ""
  | String c t => if isWhiteSpace c then trimStart t else s
  end.

Fixpoint trimEnd (s : string) : string :=
  match s with
  | "" => ""
  | String c t =>
      match trimEnd t with
      | "" => if isWhiteSpace c then "" else String c ""
      | r => String c r
      end
  end.

(** [s.trim()]. *)
Definition trim (s : string) : string := trimEnd (trimStart s).

(** [s.split(sep)] for a one-character separator: never the empty list. *)
Fixpoint split (sep : ascii) (s : string) : list string :=
  match s with
  | "" => [""]
  | String c t =>
      if (c =? sep)%char then "" :: split sep t
      else match split sep t with
           | h :: r => String c h :: r
           | [] => [String c ""]
           end
  end.

(** [parts.join(sep)]. *)
Fixpoint join (sep : string) (parts : list string) : string :=
  match parts with
  | [] => ""
  | [x] => x
  | x :: r => x ++ sep ++ join sep r
  end.

(** [parts.slice(0, -1)]. *)
Definition sliceInit (parts : list string) : list string := removelast parts.

(** [parts[parts.length - 1] || ""]. *)
Definition lastOrEmpty (parts : list string) : string := last parts "".

(** [s.replace(/^\/+|\/+$/g, "")]: the leading run of slashes is the only
    match of the first alternative, the trailing run the only match of the
    second; a string of slashes only is consumed whole by the first. *)
Fixpoint dropLeadingSlashes (s : string) : string :=
  match s with
  | "" => ""
  | String c t => if (c =? "/")%char then dropLeadingSlashes t else s
  end.

Fixpoint dropTrailingSlashes (s : string) : string :=
  match s with
  | "" => ""
  | String c t =>
      match dropTrailingSlashes t with
      | "" => if (c =? "/")%char then "" else String c ""
      | r => String c r
      end
  end.

Definition stripSlashes (s : string) : string :=
  dropTrailingSlashes (dropLeadingSlashes s).

(** [s.slice(n)]. *)
Fixpoint sliceFrom (n : nat) (s : string) : string :=
  match n, s with
  | O, _ => s
  | S _, "" => ""
  | S n', String _ t => sliceFrom n' t
  end.

(** Position of the first occurrence of [pat] in [s], with what precedes
    and what follows it. *)
Fixpoint firstMatch (pat s : string) : option (string * string) :=
  if String.prefix pat s
  then Some ("", sliceFrom (String.length pat) s)
  else match s with
       | "" => None
       | String c t =>
           match firstMatch pat t with
           | Some (before, after) => Some (String c before, after)
           | None => None
           end
       end.

(** GetSubstitution of ECMA-262 for a string pattern (no captures): in the
    replacement text, [$$] is a dollar sign, [$&] the matched text,
    [$`] the text before the match and [$'] the text after it; every other
    character, a lone dollar sign included, stands for itself. *)
Fixpoint getSubstitution (matched before after template : string) : string :=
  match template with
  | "" => ""
  | String c r =>
      if (c =? "$")%char then
        match r with
        | "" => String c ""
        | String d r' =>
            if (d =? "$")%char then
              String "$" (getSubstitution matched before after r')
            else if (d =? "&")%char then
              matched ++ getSubstitution matched before after r'
            else if (d =? "`")%char then
              before ++ getSubstitution matched before after r'
            else if (d =? "'")%char then
              after ++ getSubstitution matched before after r'
            else String c (getSubstitution matched before after r)
        end
      else String c (getSubstitution matched before after r)
  end.

(** [s.replace(pat, repl)] with a string pattern: the first occurrence
    only, the replacement text expanded by [getSubstitution]. *)
Definition replace (s pat repl : string) : string :=
  match firstMatch pat s with
  | None => s
  | Some (before, after) =>
      before ++ getSubstitution pat before after repl ++ after
  end.

(** [arr.sort(cmp)]: the sort is stable, and an element moves in front of
    another only when the comparator returns a negative number for it.
    For a consistent comparator the result is the stable sorted
    permutation, that insertion from the right computes. *)
Section Sort.
Context {A : Type} (cmp : A -> A -> Z).

Fixpoint insert (x : A) (l : list A) : list A :=
  match l with
  | [] => [x]
  | y :: r => if (cmp x y <=? 0)%Z then x :: l else y :: insert x r
  end.

Fixpoint sort (l : list A) : list A :=
  match l with
  | [] => []
  | x :: r => insert x (sort r)
  end.
End Sort.

(** A template literal's [${n}] for a count. *)
Definition numberToString (n : nat) : string :=
  NilZero.string_of_uint (Nat.to_uint n).

(** The line feed of a backslash-n escape, and the double quote. *)
Definition lineFeed : string := String "010"%char "".
Definition doubleQuote : string := String "034"%char "".

End JS.


Import JS.

(* ================================================================= *)
(** ** Pages *)

(** A page identifier is opaque; only its equality is used. *)
Definition TLPageId : Type := nat.

(** The part of the editor's page record the source reads: [id] and [name],
    the name holding the whole path, like [/a/b/c]. *)
Record TLPage : Type := mkPage { id : TLPageId; name : string }.

Module My.
Record t : Type := mk { name : string; parentPath : string }.
End My.

(** [MyPage = TLPage & { my: { name, parentPath } }]. *)
Record MyPage : Type := mkMyPage { page :> TLPage; my : My.t }.

(** nav-types.ts, [getMyPageSingle]. *)
Definition getMyPageSingle (page : TLPage) : MyPage :=
  let parts := split "/" (stripSlashes (name page)) in
  let name := lastOrEmpty parts in
  let parentPath := join "/" (sliceInit parts) in
  {| page := page; my := {| My.name := name; My.parentPath := parentPath |} |}.

Section Host.

(** [String.prototype.localeCompare] is the host's collation: the source
    only looks at the sign of what it returns. *)
Variable localeCompare : string -> string -> Z.

(** nav-types.ts, [getMyPages]. *)
Definition getMyPages (pages : list TLPage) : list MyPage :=
  let myPages := map getMyPageSingle pages in
  sort (fun a b => localeCompare (My.name (my a)) (My.name (my b))) myPages.

End Host.

(** nav-types.ts, [findAllChildPages]. *)
Definition findAllChildPages (parentPage : MyPage) (allPages : list MyPage)
  : list MyPage :=
  let parentPath :=
    if name parentPage =? "/" then "" else slice1 (name parentPage) in
  filter
    (fun page : MyPage =>
       if Nat.eqb (id page) (id parentPage) then false
       else
         let pagePathWithoutSlash := slice1 (name page) in
         startsWith pagePathWithoutSlash (parentPath ++ "/")
         || ((parentPath =? "") && negb (name page =? "/")))
    allPages.

(* ================================================================= *)
(** ** The editor and the window *)

(** Modelled from the spec: the page store of section 6 (the canvas editor,
    an external collaborator whose code is not in the repository), with
    [createPage], [renamePage], [deletePage], [getPages] and
    [setCurrentPage] acting on a list of pages, a fresh identifier for each
    created page, and the identifier of the current page. *)
Record Editor : Type := mkEditor
  { pages : list TLPage; currentPageId : TLPageId; nextId : TLPageId }.

(** What a handler does to the outside, in the order it does it. *)
Inductive Effect : Type :=
| Prompt (message defaultText : string)
| Confirm (message : string)
| Alert (message : string)
| CreatePage (name : string)
| RenamePage (id : TLPageId) (name : string)
| DeletePage (id : TLPageId)
| SetCurrentPage (id : TLPageId).

Record Outcome (A : Type) : Type := mkOutcome
  { value : A; editor : Editor; effects : list Effect }.
Arguments mkOutcome {A}.
Arguments value {A}.
Arguments editor {A}.
Arguments effects {A}.

(** A handler threads the editor and appends to the trace of effects. *)
Definition M (A : Type) : Type := Editor -> Outcome A.

Definition ret {A : Type} (a : A) : M A :=
  fun ed => mkOutcome a ed [].

Definition bind {A B : Type} (m : M A) (k : A -> M B) : M B :=
  fun ed =>
    let r1 := m ed in
    let r2 := k (value r1) (editor r1) in
    mkOutcome (value r2) (editor r2) (effects r1 ++ effects r2).

Notation "x <- m ;; k" := (bind m (fun x => k))
  (at level 61, m at next level, right associativity).
Notation "m ;; k" := (bind m (fun _ => k))
  (at level 61, right associativity).

(** [arr.forEach(f)]. *)
Fixpoint forEach {A : Type} (l : list A) (f : A -> M unit) : M unit :=
  match l with
  | [] => ret tt
  | x :: r => f x ;; forEach r f
  end.

Definition emit (e : Effect) : M unit := fun ed => mkOutcome tt ed [e].

(** [window.prompt], [window.confirm] and [alert]: what the user answers is
    an input of the handler. *)
Definition prompt (answer : option string) (message defaultText : string)
  : M (option string) :=
  fun ed => mkOutcome answer ed [Prompt message defaultText].

Definition confirm (answer : bool) (message : string) : M bool :=
  fun ed => mkOutcome answer ed [Confirm message].

Definition alert (message : string) : M unit := emit (Alert message).

Definition getPages : M (list TLPage) :=
  fun ed => mkOutcome (pages ed) ed [].

Definition createPage (name : string) : M unit :=
  fun ed =>
    mkOutcome tt
      {| pages := pages ed ++ [mkPage (nextId ed) name];
         currentPageId := currentPageId ed;
         nextId := S (nextId ed) |}
      [CreatePage name].

Definition renamePage (i : TLPageId) (newName : string) : M unit :=
  fun ed =>
    mkOutcome tt
      {| pages := map (fun p : TLPage =>
                         if Nat.eqb (id p) i then mkPage (id p) newName else p)
                      (pages ed);
         currentPageId := currentPageId ed;
         nextId := nextId ed |}
      [RenamePage i newName].

Definition deletePage (p : TLPage) : M unit :=
  fun ed =>
    mkOutcome tt
      {| pages := filter (fun q : TLPage => negb (Nat.eqb (id q) (id p)))
                         (pages ed);
         currentPageId := currentPageId ed;
         nextId := nextId ed |}
      [DeletePage (id p)].

Definition setCurrentPage (p : TLPage) : M unit :=
  fun ed =>
    mkOutcome tt
      {| pages := pages ed; currentPageId := id p; nextId := nextId ed |}
      [SetCurrentPage (id p)].

(** The error taxonomy of the specification, as the alerts of the source. *)
Definition AlreadyExistsName : Effect :=
  Alert "A page with this name already exists".
Definition AlreadyExistsPath : Effect :=
  Alert "A page with this path already exists".
Definition CannotRenameRoot : Effect := Alert "Cannot rename the root page".
Definition CannotDeleteRoot : Effect := Alert "Cannot delete the root page".

(* ================================================================= *)
(** ** The handlers *)

(** nav-types.ts, [deletePageAndChildren]. *)
Definition deletePageAndChildren (pageToDelete : MyPage)
  (allPages : list MyPage) : M unit :=
  let childPages := findAllChildPages pageToDelete allPages in
  let pagesToDelete := pageToDelete :: childPages in
  forEach pagesToDelete (fun page => deletePage page).

(** DeletePageButton.tsx, the text of the confirmation dialog. *)
Definition confirmMessage (currentPage : MyPage) (childPages : list MyPage)
  : string :=
  let childCount := List.length childPages in
  let m0 :=
    "Are you sure you want to delete the page " ++ doubleQuote
    ++ My.name (my currentPage) ++ doubleQuote ++ "?" in
  if Nat.ltb 0 childCount then
    let m1 :=
      m0 ++ lineFeed ++ lineFeed ++ "This will also delete "
      ++ numberToString childCount ++ " child page"
      ++ (if Nat.eqb childCount 1 then "" else "s") ++ ":" in
    let m2 :=
      m1 ++ join ""
              (map (fun p : MyPage => lineFeed ++ "- " ++ My.name (my p))
                   (firstn 5 childPages)) in
    if Nat.ltb 5 childCount then
      m2 ++ lineFeed ++ "... and " ++ numberToString (childCount - 5) ++ " more"
    else m2
  else m0.

(** DeletePageButton.tsx, [handleDelete]; [confirmed] is what the user
    answers to the confirmation dialog. *)
Definition handleDelete (confirmed : bool) (currentPage : MyPage)
  (allPages : list MyPage) : M unit :=
  let childPages := findAllChildPages currentPage allPages in
  ok <- confirm confirmed (confirmMessage currentPage childPages) ;;
  if ok then
    if name currentPage =? "/" then
      alert "Cannot delete the root page"
    else
      let parentPath :=
        if My.parentPath (my currentPage) =? "" then "/"
        else "/" ++ My.parentPath (my currentPage) in
      let targetPage :=
        find (fun p : MyPage => name p =? parentPath) allPages in
      deletePageAndChildren currentPage allPages ;;
      match targetPage with
      | Some target => setCurrentPage target
      | None => ret tt
      end
  else ret tt.

(** AddPageButton.tsx, [handleAdd]; [answer] is what the user types in the
    prompt, [None] when the prompt is dismissed. *)
Definition handleAdd (answer : option string) (currentPage : MyPage)
  (allPages : list MyPage) : M unit :=
  pageName <- prompt answer "Enter page name:" "" ;;
  match pageName with
  | Some pageName =>
      if truthy pageName && truthy (trim pageName) then
        let currentPath :=
          if name currentPage =? "/" then "" else name currentPage in
        let fullPath := currentPath ++ "/" ++ trim pageName in
        let existingPage :=
          find (fun p : MyPage => name p =? fullPath) allPages in
        match existingPage with
        | Some _ => alert "A page with this name already exists"
        | None =>
            createPage fullPath ;;
            editorPages <- getPages ;;
            let newPage :=
              match find (fun p : MyPage => name p =? fullPath) allPages with
              | Some p => Some (page p)
              | None => find (fun p : TLPage => name p =? fullPath) editorPages
              end in
            match newPage with
            | Some p => setCurrentPage p
            | None => ret tt
            end
        end
      else ret tt
  | None => ret tt
  end.

(** RenamePageButton, the loop that creates the missing parents:
    [currentPath] grows by one part per turn, and the parts it runs over
    are all but the last of [pathParts]. *)
Fixpoint createMissingParents (allPages : list MyPage) (currentPath : string)
  (parts : list string) : M unit :=
  match parts with
  | [] => ret tt
  | part :: rest =>
      let currentPath := currentPath ++ "/" ++ part in
      let existingParent :=
        find (fun p : MyPage => name p =? currentPath) allPages in
      (match existingParent with
       | Some _ => ret tt
       | None => createPage currentPath
       end) ;;
      createMissingParents allPages currentPath rest
  end.

(** RenamePageButton, [handleRename]; [answer] is what the user types in
    the prompt, [None] when the prompt is dismissed. *)
Definition handleRename (answer : option string) (currentPage : MyPage)
  (allPages : list MyPage) : M unit :=
  if name currentPage =? "/" then
    alert "Cannot rename the root page"
  else
    let currentPath := name currentPage in
    newPath <- prompt answer "Enter new page path:" currentPath ;;
    match newPath with
    | Some newPath =>
        if truthy newPath && truthy (trim newPath)
           && negb (trim newPath =? currentPath)
        then
          let trimmedNewPath := trim newPath in
          let normalizedNewPath :=
            if startsWith trimmedNewPath "/" then trimmedNewPath
            else "/" ++ trimmedNewPath in
          let existingPage :=
            find (fun p : MyPage => name p =? normalizedNewPath) allPages in
          match existingPage with
          | Some _ => alert "A page with this path already exists"
          | None =>
              let newFullPath := normalizedNewPath in
              let pathParts :=
                filter truthy (split "/" normalizedNewPath) in
              createMissingParents allPages "" (sliceInit pathParts) ;;
              let childPages := findAllChildPages currentPage allPages in
              let oldPath := name currentPage in
              let oldPathWithoutSlash := slice1 oldPath in
              let newPathWithoutSlash := slice1 newFullPath in
              let pagesToUpdate := currentPage :: childPages in
              forEach pagesToUpdate
                (fun page : MyPage =>
                   let newPagePath :=
                     if Nat.eqb (id page) (id currentPage) then newFullPath
                     else
                       let pagePathWithoutSlash := slice1 (name page) in
                       "/" ++ replace pagePathWithoutSlash
                                oldPathWithoutSlash newPathWithoutSlash in
                   renamePage (id page) newPagePath) ;;
              editorPages <- getPages ;;
              let renamedPage :=
                find (fun p : TLPage => name p =? newFullPath) editorPages in
              match renamedPage with
              | Some p => setCurrentPage p
              | None => ret tt
              end
          end
        else ret tt
    | None => ret tt
    end.

(** A page of the collection, as the navigation component builds it. *)
Definition pg (i : TLPageId) (path : string) : MyPage :=
  getMyPageSingle (mkPage i path).

Definition editorOf (l : list MyPage) : Editor :=
  {| pages := map page l; currentPageId := 0; nextId := 100 |}.
(* ================================================================= *)
(** ** Names for parts of the handlers *)

(** [normalizedNewPath] of [handleRename]: what the user typed, trimmed,
    and given a leading slash when it has none. *)
Definition normalizedTarget (newPath : string) : string :=
  let trimmedNewPath := trim newPath in
  if startsWith trimmedNewPath "/" then trimmedNewPath
  else "/" ++ trimmedNewPath.

(** [newPagePath] of [handleRename]: the new path of a page it updates. *)
Definition newPagePath (currentPage : MyPage) (newFullPath : string)
  (page : MyPage) : string :=
  if Nat.eqb (id page) (id currentPage) then newFullPath
  else "/" ++ replace (slice1 (name page)) (slice1 (name currentPage))
                (slice1 newFullPath).

(** [fullPath] of [handleAdd]: the candidate path for a typed name. *)
Definition candidatePath (currentPage : MyPage) (pageName : string) : string :=
  (if name currentPage =? "/" then "" else name currentPage)
  ++ "/" ++ trim pageName.

(** The paths the parent-creating loop of [handleRename] runs through. *)
Fixpoint loopPaths (currentPath : string) (parts : list string) : list string :=
  match parts with
  | [] => []
  | part :: rest =>
      (currentPath ++ "/" ++ part) :: loopPaths (currentPath ++ "/" ++ part) rest
  end.

(** Where [handleRename] navigates once the pages are renamed. *)
Definition navigation (target : string) (ed : Editor) : list Effect :=
  match find (fun p : TLPage => name p =? target) (pages ed) with
  | Some p => [SetCurrentPage (id p)]
  | None => []
  end.

(** The identifiers a trace deletes, in order. *)
Fixpoint deletions (l : list Effect) : list TLPageId :=
  match l with
  | [] => []
  | DeletePage i :: r => i :: deletions r
  | _ :: r => deletions r
  end.

(** An effect that changes the collection of pages. *)
Definition isMutation (e : Effect) : bool :=
  match e with
  | CreatePage _ | RenamePage _ _ | DeletePage _ => true
  | _ => false
  end.

(* ================================================================= *)
(** ** The words of the specification *)

(** The segments of a path: the path split on the slash, empty segments
    removed. *)
Definition segments (path : string) : list string :=
  filter truthy (split "/" path).

(** The name and the parent path read off the segments: the last segment
    (empty for the root), and the others joined by slashes. *)
Definition fromSegments (segs : list string) : My.t :=
  {| My.name := last segs ""; My.parentPath := join "/" (removelast segs) |}.

(** The stripped path and every one of its parts are non-empty, or the
    stripped path is empty: no slash is repeated inside the path. *)
Definition noInternalEmptySegment (path : string) : bool :=
  let s := stripSlashes path in
  negb (truthy s) || forallb truthy (split "/" s).

(** The path re-derived from the parent path and the name. *)
Definition rederive (m : My.t) : string :=
  if My.parentPath m =? "" then "/" ++ My.name m
  else "/" ++ My.parentPath m ++ "/" ++ My.name m.

(** [s.endsWith("/")]. *)
Fixpoint endsWithSlash (s : string) : bool :=
  match s with
  | "" => false
  | String c t =>
      match t with
      | "" => (c =? "/")%char
      | String _ _ => endsWithSlash t
      end
  end.

(** A path as the data model has it: the root, or a slash followed by a
    text that neither starts nor ends with a slash. *)
Definition validPath (path : string) : bool :=
  match path with
  | String c rest =>
      (c =? "/")%char
      && (negb (truthy rest)
          || (negb (startsWith rest "/") && negb (endsWithSlash rest)))
  | "" => false
  end.

(** The ancestors of a target path, outermost first: the slash-joined
    proper prefixes of its segments. *)
Definition ancestorPaths (target : string) : list string :=
  let segs := segments target in
  map (fun k => "/" ++ join "/" (firstn k segs))
      (seq 1 (List.length segs - 1)).

(** No node of the collection has exactly this path. *)
Definition missingIn (allPages : list MyPage) (path : string) : bool :=
  negb (existsb (fun p : MyPage => name p =? path) allPages).

(** The descendant relation of the data model: the path of [b] starts with
    the path of [a] followed by a slash. *)
Definition isDescendant (a b : TLPage) : bool :=
  String.prefix (name a ++ "/") (name b).

(** The replacement text holds no dollar sign. *)
Fixpoint dollarFree (s : string) : bool :=
  match s with
  | "" => true
  | String c t => negb (c =? "$")%char && dollarFree t
  end.

(* ================================================================= *)
(** ** Comparators *)

(** Plain comparison by code units. *)
Fixpoint codeUnitLe (a b : string) : bool :=
  match a, b with
  | "", _ => true
  | String _ _, "" => false
  | String x a', String y b' =>
      if Nat.ltb (nat_of_ascii x) (nat_of_ascii y) then true
      else if Nat.ltb (nat_of_ascii y) (nat_of_ascii x) then false
      else codeUnitLe a' b'
  end.

Definition codeUnitCompare (a b : string) : Z :=
  if codeUnitLe a b then (if codeUnitLe b a then 0%Z else (-1)%Z) else 1%Z.

(** A comparator that sorts consistently: any two strings are ordered one
    way or the other, and the order is transitive. *)
Definition consistent (cmp : string -> string -> Z) : Prop :=
  (forall a b, (cmp a b <= 0)%Z \/ (cmp b a <= 0)%Z)
  /\ (forall a b c, (cmp a b <= 0)%Z -> (cmp b c <= 0)%Z -> (cmp a c <= 0)%Z).

(** The order a comparator puts on pages, through their derived names. *)
Definition nameOrder (cmp : string -> string -> Z) (a b : MyPage) : Prop :=
  (cmp (My.name (my a)) (My.name (my b)) <= 0)%Z.

Definition toLower (c : ascii) : ascii :=
  let n := nat_of_ascii c in
  if Nat.leb 65 n && Nat.leb n 90 then ascii_of_nat (n + 32) else c.

Fixpoint lowerCase (s : string) : string :=
  match s with
  | "" => ""
  | String c t => String (toLower c) (lowerCase t)
  end.

(** A collation of the kind browsers give to [localeCompare] on names made
    of unaccented letters: the letters decide whatever their case, and on a
    tie the lower-case spelling comes first. *)
Definition collate (a b : string) : Z :=
  match codeUnitCompare (lowerCase a) (lowerCase b) with
  | Z0 => codeUnitCompare b a
  | c => c
  end.

(* ================================================================= *)
(** ** The navigation panel: nav.tsx *)

(** nav.tsx, [currentPagePath]: the path of the current page without its
    leading slash, empty at the root. *)
Definition currentPagePath (currentMyPage : MyPage) : string :=
  if name currentMyPage =? "/" then "" else slice1 (name currentMyPage).

(** nav.tsx, [filteredPages]: the direct children of the current page. *)
Definition filteredPages (currentMyPage : MyPage) (myPages : list MyPage)
  : list MyPage :=
  filter
    (fun page : MyPage =>
       (My.parentPath (my page) =? currentPagePath currentMyPage)
       && negb (Nat.eqb (id page) (id currentMyPage)))
    myPages.

(** nav.tsx, the [childCount] handed to the item of a page. *)
Definition childCount (page : MyPage) (myPages : list MyPage) : nat :=
  let pagePath := slice1 (name page) in
  List.length
    (filter (fun p : MyPage => My.parentPath (my p) =? pagePath) myPages).

(** [Map<string, number>], read through [get] and written through [set]
    only. *)
Definition NavigationMemory : Type := string -> option nat.

Definition memoryEmpty : NavigationMemory := fun _ => None.

Definition memoryGet (m : NavigationMemory) (k : string) : option nat := m k.

Definition memorySet (m : NavigationMemory) (k : string) (v : nat)
  : NavigationMemory :=
  fun k' => if k' =? k then Some v else m k'.

(** The React state of the panel that the keyboard handlers write. *)
Record NavState : Type := mkNavState
  { selectedIndex : nat; navigationMemory : NavigationMemory }.

(** What a key handler leaves: whether it called [preventDefault], the
    state, and what it does to the editor. *)
Record KeyOutcome : Type := mkKeyOutcome
  { defaultPrevented : bool; navState : NavState; run : M unit }.

(** nav.tsx, [handleKeyDown]; the listener is installed in keyboard mode
    only. *)
Definition navKeyDown (keyboardMode : bool) (key : string)
  (currentMyPage : MyPage) (myPages : list MyPage) (st : NavState)
  : KeyOutcome :=
  let filtered := filteredPages currentMyPage myPages in
  if negb keyboardMode then mkKeyOutcome false st (ret tt)
  else if key =? "ArrowDown" then
    mkKeyOutcome true
      (if Nat.ltb 0 (List.length filtered) then
         mkNavState
           (if Nat.ltb (selectedIndex st) (List.length filtered - 1)
            then selectedIndex st + 1 else 0)
           (navigationMemory st)
       else st)
      (ret tt)
  else if key =? "ArrowUp" then
    mkKeyOutcome true
      (if Nat.ltb 0 (List.length filtered) then
         mkNavState
           (if Nat.ltb 0 (selectedIndex st)
            then selectedIndex st - 1 else List.length filtered - 1)
           (navigationMemory st)
       else st)
      (ret tt)
  else if key =? "ArrowRight" then
    match (if Nat.ltb 0 (List.length filtered)
           then nth_error filtered (selectedIndex st) else None) with
    | Some child =>
        mkKeyOutcome true
          (mkNavState (selectedIndex st)
             (memorySet (navigationMemory st) (currentPagePath currentMyPage)
                (selectedIndex st)))
          (setCurrentPage child)
    | None => mkKeyOutcome true st (ret tt)
    end
  else if key =? "ArrowLeft" then
    if negb (name currentMyPage =? "/") then
      let parentPath :=
        if My.parentPath (my currentMyPage) =? "" then "/"
        else "/" ++ My.parentPath (my currentMyPage) in
      let parentPage :=
        find (fun p : MyPage => name p =? parentPath) myPages in
      mkKeyOutcome true
        (mkNavState (selectedIndex st)
           (memorySet (navigationMemory st) (currentPagePath currentMyPage)
              (selectedIndex st)))
        (match parentPage with
         | Some p => setCurrentPage p
         | None => ret tt
         end)
    else mkKeyOutcome true st (ret tt)
  else mkKeyOutcome false st (ret tt).

(** nav.tsx, the effect that resets the selected index when the keyboard
    mode, the children or the current page change. *)
Definition resetSelection (keyboardMode : bool) (currentMyPage : MyPage)
  (myPages : list MyPage) (st : NavState) : NavState :=
  let filtered := filteredPages currentMyPage myPages in
  if keyboardMode && Nat.ltb 0 (List.length filtered) then
    match memoryGet (navigationMemory st) (currentPagePath currentMyPage) with
    | Some rememberedIndex =>
        if Nat.ltb rememberedIndex (List.length filtered)
        then mkNavState rememberedIndex (navigationMemory st)
        else mkNavState 0 (navigationMemory st)
    | None => mkNavState 0 (navigationMemory st)
    end
  else st.

(* ================================================================= *)
(** ** The breadcrumb: Breadcrumb.tsx *)

Record BreadcrumbItem : Type := mkItem
  { label : string; path : string; isLast : bool }.

(** Breadcrumb.tsx, the [forEach] over the segments: [currentPath] grows by
    one segment per turn. *)
Fixpoint pushSegments (currentPath : string) (index total : nat)
  (pathSegments : list string) : list BreadcrumbItem :=
  match pathSegments with
  | [] => []
  | segment :: rest =>
      let currentPath := currentPath ++ "/" ++ segment in
      mkItem segment currentPath (Nat.eqb index (total - 1))
      :: pushSegments currentPath (S index) total rest
  end.

(** Breadcrumb.tsx, [breadcrumbItems]. *)
Definition breadcrumbItems (currentPage : MyPage) : list BreadcrumbItem :=
  if name currentPage =? "/" then [mkItem "root" "/" true]
  else
    let pathSegments := filter truthy (split "/" (name currentPage)) in
    mkItem "root" "/" false
    :: pushSegments "" 0 (List.length pathSegments) pathSegments.

(** Breadcrumb.tsx, the [onClick] of an item. *)
Definition breadcrumbClick (allPages : list MyPage) (item : BreadcrumbItem)
  : M unit :=
  match find (fun p : MyPage => name p =? path item) allPages with
  | Some page => if negb (isLast item) then setCurrentPage page else ret tt
  | None => ret tt
  end.

(* ================================================================= *)
(** ** The keyboard shortcuts: stores.ts and Controls.tsx *)

(** [s.toLowerCase()] on 8-bit code units: the capital letters, accented
    ones included, go to their small letters. *)
Definition toLowerCaseUnit (c : ascii) : ascii :=
  let n := nat_of_ascii c in
  if (Nat.leb 65 n && Nat.leb n 90)
     || (Nat.leb 192 n && Nat.leb n 222 && negb (Nat.eqb n 215))
  then ascii_of_nat (n + 32) else c.

Fixpoint toLowerCase (s : string) : string :=
  match s with
  | "" => ""
  | String c t => String (toLowerCaseUnit c) (toLowerCase t)
  end.

(** stores.ts: the store holds one boolean. *)
Definition setKeyboardMode (mode : bool) (store : bool) : bool := mode.

Definition toggleKeyboardMode (store : bool) : bool := negb store.

(** The part of a keyboard event the handlers read. *)
Record KeyboardEvent : Type := mkKeyboardEvent
  { metaKey : bool; ctrlKey : bool; key : string }.

(** What the handler of Controls leaves: whether it called
    [preventDefault], the keyboard mode, and the click it made on a button,
    which runs the handler of that button. *)
Record ControlsOutcome : Type := mkControlsOutcome
  { controlsPrevented : bool; keyboardModeAfter : bool; clicked : M unit }.

(** Controls.tsx, [handleKeyDown]; [answer] and [confirmed] are what the
    user answers to the dialog the clicked button opens. *)
Definition controlsKeyDown (event : KeyboardEvent) (keyboardMode : bool)
  (answer : option string) (confirmed : bool)
  (currentPage : MyPage) (allPages : list MyPage) : ControlsOutcome :=
  let isRootPage := name currentPage =? "/" in
  if (metaKey event || ctrlKey event) && (key event =? "k") then
    mkControlsOutcome true (toggleKeyboardMode keyboardMode) (ret tt)
  else if negb keyboardMode then
    mkControlsOutcome false keyboardMode (ret tt)
  else
    let k := toLowerCase (key event) in
    if k =? "c" then
      mkControlsOutcome true keyboardMode
        (handleAdd answer currentPage allPages)
    else if k =? "r" then
      mkControlsOutcome true keyboardMode
        (if negb isRootPage then handleRename answer currentPage allPages
         else ret tt)
    else if k =? "d" then
      mkControlsOutcome true keyboardMode
        (if negb isRootPage then handleDelete confirmed currentPage allPages
         else ret tt)
    else if k =? "escape" then
      mkControlsOutcome true (setKeyboardMode false keyboardMode) (ret tt)
    else mkControlsOutcome false keyboardMode (ret tt).

(* ================================================================= *)
(** ** The search of the command palette *)

(** What [getSearchScore] returns when the query does not match. *)
Definition noMatch : Q := (-1 # 1)%Q.

(** CommandPalette, the loop of [getSearchScore]: it runs while characters
    remain in the text and in the query, and leaves the score with what
    remains of the query; [previous] is the character before the current
    one, [None] at the start of the text. *)
Fixpoint searchLoop (textLower : string) (previous : option ascii)
  (queryLower : string) (score : Q) (consecutiveMatches : nat)
  {struct textLower} : Q * string :=
  match queryLower with
  | "" => (score, "")
  | String q queryRest =>
      match textLower with
      | "" => (score, queryLower)
      | String t textRest =>
          if (t =? q)%char then
            let consecutiveMatches := S consecutiveMatches in
            let score :=
              (score + 1
               + inject_Z (Z.of_nat consecutiveMatches) * (1 # 2))%Q in
            let score :=
              match previous with
              | None => (score + 2)%Q
              | Some p =>
                  if (p =? "/")%char || (p =? " ")%char then (score + 2)%Q
                  else score
              end in
            searchLoop textRest (Some t) queryRest score consecutiveMatches
          else searchLoop textRest (Some t) queryLower score 0
      end
  end.

(** CommandPalette, [getSearchScore]; the scores are multiples of one half,
    which the numbers of the source hold exactly. *)
Definition getSearchScore (query text : string) : Q :=
  if negb (truthy query) then 0%Q
  else
    let queryLower := toLowerCase query in
    let textLower := toLowerCase text in
    match searchLoop textLower None queryLower 0%Q 0 with
    | (score, "") => score
    | (_, String _ _) => noMatch
    end.

(** The sign of a number a comparator returns. *)
Definition numberSign (x : Q) : Z :=
  match (x ?= 0)%Q with
  | Lt => (-1)%Z
  | Eq => 0%Z
  | Gt => 1%Z
  end.

(** [x > 0]. *)
Definition isPositive (x : Q) : bool := negb (Qle_bool x 0).

(** CommandPalette, [filteredPages]: the first ten pages when the query is
    blank, otherwise the ten best of the pages with a positive score. *)
Definition paletteFilteredPages (query : string) (myPages : list MyPage)
  : list MyPage :=
  if negb (truthy (trim query)) then firstn 10 myPages
  else
    let scored :=
      firstn 10
        (sort (fun a b : MyPage * Q => numberSign (snd b - snd a)%Q)
           (filter (fun item : MyPage * Q => isPositive (snd item))
              (map (fun page : MyPage =>
                      (page,
                       (getSearchScore query (name page)
                        + getSearchScore query (My.name (my page)))%Q))
                 myPages))) in
    map fst scored.

(** The characters of the first text occur in the second, in order. *)
Inductive Subsequence : string -> string -> Prop :=
| sub_empty : forall t, Subsequence "" t
| sub_take : forall c q t, Subsequence q t -> Subsequence (String c q) (String c t)
| sub_skip : forall c q t, Subsequence q t -> Subsequence q (String c t).

(* ================================================================= *)
(** ** Renames in a row *)

(** What [renamePage], called for the pages of a list one after the other
    with the paths [h] gives them, makes of a page of the editor. *)
Fixpoint renameAll (h : MyPage -> string) (l : list MyPage) (q : TLPage)
  : TLPage :=
  match l with
  | [] => q
  | x :: r =>
      renameAll h r (if Nat.eqb (id q) (id x) then mkPage (id q) (h x) else q)
  end.

(* ================================================================= *)
(** ** Pages as the panel reads them *)

(** A page as [getMyPageSingle] builds it: its derived fields are those of
    its path. *)
Definition parsed (p : MyPage) : Prop := p = getMyPageSingle (page p).

(** No slash in a text. *)
Fixpoint slashFree (s : string) : bool :=
  match s with
  | "" => true
  | String c t => negb (c =? "/")%char && slashFree t
  end.

(* ================================================================= *)
(** ** Facts on the string operations *)

Example split_a_b : split "/" "a/b" = ["a"; "b"].
Proof. reflexivity. Qed.

Example split_empty : split "/" "" = [""].
Proof. reflexivity. Qed.

Example split_repeated : split "/" "a//b" = ["a"; ""; "b"].
Proof. reflexivity. Qed.

Example strip_all_slashes : stripSlashes "///" = "".
Proof. reflexivity. Qed.

Example strip_both_ends : stripSlashes "//a//b/" = "a//b".
Proof. reflexivity. Qed.

Example trim_spaces : trim "  a b   " = "a b".
Proof. reflexivity. Qed.

Example replace_first_only : replace "a-b-a" "a" "x" = "x-b-a".
Proof. reflexivity. Qed.

Example replace_dollar_dollar : replace "proj/sub" "proj" "a$$b" = "a$b/sub".
Proof. reflexivity. Qed.

Example replace_dollar_digit : replace "proj/sub" "proj" "a$1b" = "a$1b/sub".
Proof. reflexivity. Qed.

Example sort_is_stable :
  sort (fun a b : nat * nat => (Z.of_nat (fst a) - Z.of_nat (fst b))%Z)
    [(2, 0); (1, 1); (2, 2); (1, 3)]
  = [(1, 1); (1, 3); (2, 0); (2, 2)].
Proof. reflexivity. Qed.

Lemma split_not_nil (c : ascii) (s : string) : split c s <> [].
Proof.
  destruct s as [|a t]; simpl; [discriminate|].
  destruct (a =? c)%char; [discriminate|].
  destruct (split c t); discriminate.
Qed.

Lemma split_cons_other (c a : ascii) (t : string) :
  (a =? c)%char = false ->
  split c (String a t) = String a (hd "" (split c t)) :: tl (split c t).
Proof.
  intros Hac. simpl. rewrite Hac.
  destruct (split c t) as [|h r] eqn:E; [|reflexivity].
  exfalso. exact (split_not_nil c t E).
Qed.

Lemma join_cons_char (sep : string) (a : ascii) (h : string) (r : list string) :
  join sep (String a h :: r) = String a (join sep (h :: r)).
Proof. destruct r; reflexivity. Qed.

Lemma join_split (s : string) : join "/" (split "/" s) = s.
Proof.
  induction s as [|a t IH]; [reflexivity|].
  destruct (a =? "/")%char eqn:Ha.
  - apply Ascii.eqb_eq in Ha. subst a. simpl.
    destruct (split "/" t) as [|h r] eqn:E.
    + exfalso. exact (split_not_nil _ _ E).
    + simpl in IH |- *. now rewrite IH.
  - rewrite split_cons_other by assumption.
    destruct (split "/" t) as [|h r] eqn:E.
    + exfalso. exact (split_not_nil _ _ E).
    + simpl hd. simpl tl. rewrite join_cons_char. now rewrite IH.
Qed.

Lemma append_assoc (a b c : string) : (a ++ b) ++ c = a ++ b ++ c.
Proof. induction a as [|x a IH]; simpl; [reflexivity|now rewrite IH]. Qed.

Lemma join_removelast (sep x y : string) (r : list string) :
  join sep (x :: y :: r)
  = join sep (removelast (x :: y :: r)) ++ sep ++ last (x :: y :: r) "".
Proof.
  revert x y. induction r as [|z r IH]; intros x y.
  - reflexivity.
  - change (join sep (x :: y :: z :: r)) with (x ++ sep ++ join sep (y :: z :: r)).
    rewrite IH.
    change (removelast (x :: y :: z :: r)) with (x :: removelast (y :: z :: r)).
    change (last (x :: y :: z :: r) "") with (last (y :: z :: r) "").
    destruct (removelast (y :: z :: r)) as [|u v] eqn:E.
    + discriminate E.
    + change (join sep (x :: u :: v)) with (x ++ sep ++ join sep (u :: v)).
      now rewrite !append_assoc.
Qed.

Lemma dropLeadingSlashes_head (s : string) (t : string) :
  dropLeadingSlashes s <> String "/" t.
Proof.
  induction s as [|a u IH]; simpl; [discriminate|].
  destruct (a =? "/")%char eqn:Ha; [assumption|].
  intros E. injection E as E1 _. subst a. discriminate Ha.
Qed.

Lemma dropTrailingSlashes_head (a : ascii) (u : string) :
  (a =? "/")%char = false ->
  exists v, dropTrailingSlashes (String a u) = String a v.
Proof.
  intros Ha. simpl. destruct (dropTrailingSlashes u).
  - rewrite Ha. now exists "".
  - eexists. reflexivity.
Qed.

Lemma stripSlashes_head (s t : string) : stripSlashes s <> String "/" t.
Proof.
  unfold stripSlashes.
  destruct (dropLeadingSlashes s) as [|a u] eqn:E; [discriminate|].
  destruct (a =? "/")%char eqn:Ha.
  - apply Ascii.eqb_eq in Ha. subst a. exfalso.
    exact (dropLeadingSlashes_head _ _ E).
  - destruct (dropTrailingSlashes_head a u Ha) as [v Hv]. rewrite Hv.
    intros E'. injection E' as E1 _. subst a. discriminate Ha.
Qed.

Lemma dropLeadingSlashes_id (s : string) :
  startsWith s "/" = false -> dropLeadingSlashes s = s.
Proof.
  destruct s as [|a t]; [reflexivity|].
  unfold startsWith. simpl.
  destruct (Ascii.ascii_dec "/" a) as [E|N].
  - subst a. destruct t; discriminate.
  - intros _. destruct (a =? "/")%char eqn:Ha; [|reflexivity].
    apply Ascii.eqb_eq in Ha. now subst a.
Qed.

Lemma dropTrailingSlashes_id (s : string) :
  endsWithSlash s = false -> dropTrailingSlashes s = s.
Proof.
  induction s as [|a t IH]; [reflexivity|].
  simpl. destruct t as [|b u].
  - intros Ha. simpl. now rewrite Ha.
  - intros H. rewrite (IH H). reflexivity.
Qed.

Lemma stripSlashes_valid (path : string) :
  validPath path = true -> "/" ++ stripSlashes path = path.
Proof.
  destruct path as [|c rest]; [discriminate|].
  unfold validPath. intros H.
  apply andb_true_iff in H. destruct H as [Hc H].
  apply Ascii.eqb_eq in Hc. subst c.
  unfold stripSlashes. simpl dropLeadingSlashes.
  apply orb_true_iff in H. destruct H as [H|H].
  - destruct rest; [reflexivity|discriminate].
  - apply andb_true_iff in H. destruct H as [H1 H2].
    apply negb_true_iff in H1, H2.
    rewrite (dropLeadingSlashes_id _ H1), (dropTrailingSlashes_id _ H2).
    reflexivity.
Qed.

Lemma rederive_parts (s : string) :
  (forall t, s <> String "/" t) ->
  rederive (fromSegments (split "/" s)) = "/" ++ s.
Proof.
  intros Hs. pose proof (join_split s) as J.
  destruct (split "/" s) as [|x [|y r]] eqn:E.
  - exfalso. exact (split_not_nil _ _ E).
  - simpl in J. subst x. reflexivity.
  - rewrite join_removelast in J.
    unfold rederive, fromSegments.
    cbv beta iota delta [My.parentPath My.name].
    destruct (join "/" (removelast (x :: y :: r)) =? "") eqn:Q.
    + apply String.eqb_eq in Q. rewrite Q in J. simpl in J.
      exfalso. exact (Hs _ (eq_sym J)).
    + now rewrite J.
Qed.

Lemma getMyPageSingle_my (p : TLPage) :
  my (getMyPageSingle p) = fromSegments (split "/" (stripSlashes (name p))).
Proof. reflexivity. Qed.

(** Splitting after the leading slashes are dropped loses only empty parts. *)
Lemma segments_dropLeadingSlashes (s : string) :
  segments (dropLeadingSlashes s) = segments s.
Proof.
  unfold segments. induction s as [|a t IH]; [reflexivity|].
  simpl. destruct (a =? "/")%char eqn:Ha; [|now simpl; rewrite Ha].
  simpl. exact IH.
Qed.

(** A text that the trailing-slash rule erases splits into empty parts. *)
Lemma dropTrailingSlashes_empty (t : string) :
  dropTrailingSlashes t = "" -> Forall (fun x => x = "") (split "/" t).
Proof.
  induction t as [|b u IH]; simpl.
  - intros _. repeat constructor.
  - destruct (dropTrailingSlashes u) eqn:E; [|discriminate].
    destruct (b =? "/")%char; [|discriminate].
    intros _. constructor; [reflexivity|]. now apply IH.
Qed.

Lemma filter_truthy_all_empty (l : list string) :
  Forall (fun x => x = "") l -> filter truthy l = [].
Proof.
  induction 1 as [|x l Hx _ IH]; [reflexivity|].
  subst x. simpl. exact IH.
Qed.

(** Dropping trailing slashes keeps the first part of a text it does not
    erase. *)
Lemma split_dropTrailingSlashes_hd (t : string) :
  dropTrailingSlashes t <> "" ->
  hd "" (split "/" (dropTrailingSlashes t)) = hd "" (split "/" t).
Proof.
  induction t as [|b u IH]; [reflexivity|].
  intros Hne.
  destruct (b =? "/")%char eqn:Hb.
  - simpl in Hne |- *. rewrite Hb in *.
    destruct (dropTrailingSlashes u); [now elim Hne|].
    simpl. now rewrite Hb.
  - rewrite (split_cons_other _ _ u Hb).
    simpl dropTrailingSlashes. destruct (dropTrailingSlashes u) as [|c v] eqn:E.
    + rewrite Hb. simpl. rewrite Hb. simpl.
      pose proof (dropTrailingSlashes_empty u E) as F.
      destruct (split "/" u); [reflexivity|]. inversion F; subst. reflexivity.
    + rewrite (split_cons_other _ _ _ Hb). cbn [hd].
      rewrite IH by discriminate. reflexivity.
Qed.

Lemma segments_dropTrailingSlashes (s : string) :
  segments (dropTrailingSlashes s) = segments s.
Proof.
  unfold segments. induction s as [|a t IH]; [reflexivity|].
  destruct (dropTrailingSlashes t) as [|c v] eqn:E.
  - pose proof (dropTrailingSlashes_empty t E) as F.
    simpl dropTrailingSlashes. rewrite E.
    destruct (a =? "/")%char eqn:Ha.
    + simpl. rewrite Ha. simpl. now rewrite filter_truthy_all_empty.
    + rewrite (split_cons_other _ _ t Ha). simpl. rewrite Ha. simpl.
      destruct (split "/" t) as [|h r]; [reflexivity|].
      inversion F; subst. simpl. now rewrite filter_truthy_all_empty.
  - assert (Hne : dropTrailingSlashes t <> "") by (rewrite E; discriminate).
    pose proof (split_dropTrailingSlashes_hd t Hne) as Hhd.
    simpl dropTrailingSlashes. rewrite E. rewrite <- E. rewrite <- E in IH.
    destruct (a =? "/")%char eqn:Ha.
    + simpl. rewrite Ha. simpl. exact IH.
    + rewrite !(split_cons_other _ _ _ Ha). simpl. f_equal.
      * now rewrite Hhd.
      * pose proof (split_not_nil "/" t) as N1.
        pose proof (split_not_nil "/" (dropTrailingSlashes t)) as N2.
        destruct (split "/" t) as [|h r]; [now elim N1|].
        destruct (split "/" (dropTrailingSlashes t)) as [|h' r']; [now elim N2|].
        simpl in Hhd. subst h'. simpl in IH |- *.
        destruct (truthy h); [now injection IH|exact IH].
Qed.

Lemma segments_stripSlashes (s : string) :
  segments (stripSlashes s) = segments s.
Proof.
  unfold stripSlashes.
  now rewrite segments_dropTrailingSlashes, segments_dropLeadingSlashes.
Qed.

Lemma filter_truthy_id (l : list string) :
  forallb truthy l = true -> filter truthy l = l.
Proof.
  induction l as [|x l IH]; [reflexivity|].
  simpl. intros H. apply andb_true_iff in H. destruct H as [Hx Hl].
  rewrite Hx. now rewrite IH.
Qed.

(* ================================================================= *)
(** ** Parsing a path: [getMyPageSingle] *)

(** What does hold of the segments: [getMyPageSingle] reads the name and
    the parent path off the parts of the path stripped of its leading and
    trailing slashes only, empty parts inside kept; whenever no slash is
    repeated inside the path these are the name and parent path of the
    segments, the path split on slashes with the empty segments removed. *)
Theorem parse_agrees_with_segments (p : TLPage) :
  my (getMyPageSingle p) = fromSegments (split "/" (stripSlashes (name p)))
  /\ (noInternalEmptySegment (name p) = true ->
      my (getMyPageSingle p) = fromSegments (segments (name p))).
Proof.
  split; [reflexivity|].
  unfold noInternalEmptySegment. cbv zeta. intros H.
  rewrite getMyPageSingle_my, <- (segments_stripSlashes (name p)).
  apply orb_true_iff in H. destruct H as [H|H].
  - destruct (stripSlashes (name p)); [reflexivity|discriminate].
  - unfold segments. now rewrite filter_truthy_id.
Qed.

Lemma parse_agrees_with_segments_witness :
  noInternalEmptySegment "/a/b" = true
  /\ my (getMyPageSingle (mkPage 7 "/a/b")) = fromSegments ["a"; "b"].
Proof.
  split; [reflexivity|].
  exact (proj2 (parse_agrees_with_segments (mkPage 7 "/a/b")) eq_refl).
Defined.

(** On a repeated slash the parts and the segments part ways: [/a//b]
    keeps its empty part, so its parent path is [a/] where the normalized
    [/a/b] has [a]. *)
Lemma parse_keeps_internal_empty_segment :
  my (getMyPageSingle (mkPage 7 "/a//b"))
    = {| My.name := "b"; My.parentPath := "a/" |}
  /\ my (getMyPageSingle (mkPage 7 "/a/b"))
    = {| My.name := "b"; My.parentPath := "a" |}
  /\ my (getMyPageSingle (mkPage 7 "/a//b")) <> fromSegments (segments "/a//b").
Proof.
  split; [reflexivity|]. split; [reflexivity|]. discriminate.
Qed.

(** C5, the failing input: the page [/a//b] beside [/] and [/a]. The
    regular expression of [getMyPageSingle] takes the runs of slashes away
    at both ends of the path only, and the split keeps the empty part
    inside: the parent path is [a/], not the [a] of [/a/b]. The other
    readers of the same path drop the empty part (the segments of the
    breadcrumb and of the parent loop of [handleRename] are [a] and [b]),
    so the breadcrumb shows the page under [/a], and a delete or a rename
    of [/a] takes the page along as a descendant; but the panel lists it
    under no page, and the parent that the left arrow and [handleDelete]
    look for, [/a/], is the path of no page. *)
Theorem parse_repeated_slash_loses_the_page :
  my (getMyPageSingle (mkPage 2 "/a//b"))
    = {| My.name := "b"; My.parentPath := "a/" |}
  /\ my (getMyPageSingle (mkPage 2 "/a/b"))
     = {| My.name := "b"; My.parentPath := "a" |}
  /\ fromSegments (segments "/a//b")
     = {| My.name := "b"; My.parentPath := "a" |}
  /\ map path (breadcrumbItems (pg 2 "/a//b")) = ["/"; "/a"; "/a/b"]
  /\ In (pg 2 "/a//b")
       (findAllChildPages (pg 1 "/a") [pg 0 "/"; pg 1 "/a"; pg 2 "/a//b"])
  /\ (forall p : MyPage,
        In p [pg 0 "/"; pg 1 "/a"; pg 2 "/a//b"] ->
        ~ In (pg 2 "/a//b")
            (filteredPages p [pg 0 "/"; pg 1 "/a"; pg 2 "/a//b"]))
  /\ find (fun p : MyPage => name p =? "/" ++ My.parentPath (my (pg 2 "/a//b")))
        [pg 0 "/"; pg 1 "/a"; pg 2 "/a//b"] = None.
Proof.
  split; [reflexivity|]. split; [reflexivity|]. split; [reflexivity|].
  split; [reflexivity|]. split; [vm_compute; now left|].
  split; [|reflexivity].
  intros p [<-|[<-|[<-|[]]]]; vm_compute; intuition discriminate.
Qed.

(** C6: parsing a path and re-deriving it from the parent path and the name
    gives back the normalized path, the path stripped of its leading and
    trailing slashes behind one slash; for a valid path that is the path
    itself. *)
Theorem parse_rederive_roundtrip (p : TLPage) :
  rederive (my (getMyPageSingle p)) = "/" ++ stripSlashes (name p)
  /\ (validPath (name p) = true -> rederive (my (getMyPageSingle p)) = name p).
Proof.
  assert (R : rederive (my (getMyPageSingle p)) = "/" ++ stripSlashes (name p)).
  { rewrite getMyPageSingle_my. apply rederive_parts.
    intros t. apply stripSlashes_head. }
  split; [exact R|].
  intros V. rewrite R. now apply stripSlashes_valid.
Qed.

Lemma parse_rederive_roundtrip_witness :
  validPath "/a/b/c" = true
  /\ my (getMyPageSingle (mkPage 7 "/a/b/c"))
     = {| My.name := "c"; My.parentPath := "a/b" |}
  /\ rederive (my (getMyPageSingle (mkPage 7 "/a/b/c"))) = "/a/b/c".
Proof.
  split; [reflexivity|]. split; [reflexivity|].
  exact (proj2 (parse_rederive_roundtrip (mkPage 7 "/a/b/c")) eq_refl).
Defined.

(* ================================================================= *)
(** ** Facts on the handlers *)

Lemma effects_bind {A B : Type} (m : M A) (k : A -> M B) (ed : Editor) :
  effects (bind m k ed)
  = (effects (m ed) ++ effects (k (value (m ed)) (editor (m ed))))%list.
Proof. reflexivity. Qed.

Lemma editor_bind {A B : Type} (m : M A) (k : A -> M B) (ed : Editor) :
  editor (bind m k ed) = editor (k (value (m ed)) (editor (m ed))).
Proof. reflexivity. Qed.

Lemma forEach_effects {A : Type} (g : A -> M unit) (h : A -> Effect) :
  (forall x ed, effects (g x ed) = [h x]) ->
  forall l ed, effects (forEach l g ed) = map h l.
Proof.
  intros Hg. induction l as [|x l IH]; intros ed; [reflexivity|].
  simpl forEach. rewrite effects_bind, Hg, IH. reflexivity.
Qed.

Lemma truthy_trim (s : string) :
  truthy s && truthy (trim s) = truthy (trim s).
Proof. destruct s; reflexivity. Qed.

Lemma truthy_true (s : string) : truthy s = true <-> s <> "".
Proof. destruct s; simpl; split; congruence. Qed.

Lemma find_none_missingIn (allPages : list MyPage) (path : string) :
  find (fun p : MyPage => name p =? path) allPages = None
  <-> missingIn allPages path = true.
Proof.
  unfold missingIn. induction allPages as [|q l IH]; simpl.
  - tauto.
  - destruct (name q =? path); simpl; [split; discriminate|exact IH].
Qed.

Lemma find_some_name (allPages : list MyPage) (path : string) (q : MyPage) :
  find (fun p : MyPage => name p =? path) allPages = Some q ->
  In q allPages /\ name q = path.
Proof.
  intros H. apply find_some in H. destruct H as [H1 H2].
  split; [assumption|now apply String.eqb_eq].
Qed.

(** The root is refused before anything else happens. *)
Lemma handleRename_root (answer : option string) (currentPage : MyPage)
  (allPages : list MyPage) (ed : Editor) :
  name currentPage = "/" ->
  handleRename answer currentPage allPages ed = mkOutcome tt ed [CannotRenameRoot].
Proof.
  intros H. unfold handleRename. rewrite H. reflexivity.
Qed.

(** A dismissed prompt, a blank answer and the current path typed again
    leave the handler after the prompt. *)
Lemma handleRename_ignored (answer : option string) (currentPage : MyPage)
  (allPages : list MyPage) (ed : Editor) :
  name currentPage <> "/" ->
  match answer with
  | None => True
  | Some newPath => trim newPath = "" \/ trim newPath = name currentPage
  end ->
  handleRename answer currentPage allPages ed
  = mkOutcome tt ed [Prompt "Enter new page path:" (name currentPage)].
Proof.
  intros Hroot Hans. unfold handleRename.
  apply String.eqb_neq in Hroot. rewrite Hroot.
  destruct answer as [newPath|]; [|reflexivity].
  unfold bind, prompt. cbn [value editor effects].
  rewrite truthy_trim.
  destruct Hans as [E|E].
  - rewrite E. reflexivity.
  - rewrite E, String.eqb_refl, andb_false_r. reflexivity.
Qed.

(** The guard of [handleRename] on an answer that is neither blank nor the
    current path. *)
Lemma handleRename_guard (newPath current : string) :
  trim newPath <> "" -> trim newPath <> current ->
  truthy newPath && truthy (trim newPath) && negb (trim newPath =? current)
  = true.
Proof.
  intros H1 H2. rewrite truthy_trim.
  apply truthy_true in H1. apply String.eqb_neq in H2.
  now rewrite H1, H2.
Qed.

(** An occupied target stops the handler at the alert. *)
Lemma handleRename_occupied (newPath : string) (currentPage q : MyPage)
  (allPages : list MyPage) (ed : Editor) :
  name currentPage <> "/" ->
  trim newPath <> "" ->
  trim newPath <> name currentPage ->
  find (fun p : MyPage => name p =? normalizedTarget newPath) allPages = Some q ->
  handleRename (Some newPath) currentPage allPages ed
  = mkOutcome tt ed
      [Prompt "Enter new page path:" (name currentPage); AlreadyExistsPath].
Proof.
  intros Hroot H1 H2 Hfind. unfold handleRename.
  apply String.eqb_neq in Hroot. rewrite Hroot.
  unfold bind, prompt. cbn [value editor effects].
  rewrite (handleRename_guard _ _ H1 H2).
  unfold normalizedTarget in Hfind. cbv zeta in Hfind. rewrite Hfind.
  reflexivity.
Qed.

Lemma createMissingParents_effects (allPages : list MyPage) :
  forall (parts : list string) (currentPath : string) (ed : Editor),
    effects (createMissingParents allPages currentPath parts ed)
    = map CreatePage (filter (missingIn allPages) (loopPaths currentPath parts)).
Proof.
  induction parts as [|part rest IH]; intros currentPath ed; [reflexivity|].
  cbn [createMissingParents]. rewrite effects_bind, IH.
  cbn [loopPaths filter].
  destruct (find (fun p : MyPage => name p =? currentPath ++ "/" ++ part) allPages)
    as [q|] eqn:F.
  - assert (Hm : missingIn allPages (currentPath ++ "/" ++ part) = false).
    { destruct (missingIn allPages (currentPath ++ "/" ++ part)) eqn:Q;
        [|reflexivity].
      apply find_none_missingIn in Q. congruence. }
    rewrite Hm. reflexivity.
  - apply find_none_missingIn in F. rewrite F. reflexivity.
Qed.

Lemma navigation_effects (target : string) (ed : Editor) :
  effects
    (match find (fun p : TLPage => name p =? target) (pages ed) with
     | Some p => setCurrentPage p
     | None => ret tt
     end ed)
  = navigation target ed.
Proof.
  unfold navigation.
  destruct (find (fun p : TLPage => name p =? target) (pages ed)); reflexivity.
Qed.

(** A free target: the handler prompts, creates the missing parents the
    loop runs through, renames the page and its children, and navigates. *)
Lemma handleRename_success (newPath : string) (currentPage : MyPage)
  (allPages : list MyPage) (ed : Editor) :
  name currentPage <> "/" ->
  trim newPath <> "" ->
  trim newPath <> name currentPage ->
  find (fun p : MyPage => name p =? normalizedTarget newPath) allPages = None ->
  exists ed',
    effects (handleRename (Some newPath) currentPage allPages ed)
    = (Prompt "Enter new page path:" (name currentPage)
       :: map CreatePage
            (filter (missingIn allPages)
               (loopPaths "" (removelast (segments (normalizedTarget newPath)))))
       ++ map (fun p : MyPage =>
                 RenamePage (id p)
                   (newPagePath currentPage (normalizedTarget newPath) p))
            (currentPage :: findAllChildPages currentPage allPages)
       ++ navigation (normalizedTarget newPath) ed')%list.
Proof.
  intros Hroot H1 H2 Hfind. unfold handleRename.
  apply String.eqb_neq in Hroot. rewrite Hroot.
  rewrite effects_bind. unfold prompt at 1 2 3. cbn [value editor effects].
  rewrite (handleRename_guard _ _ H1 H2).
  unfold normalizedTarget in *. cbv zeta in *. rewrite Hfind.
  set (target := if startsWith (trim newPath) "/" then trim newPath
                 else "/" ++ trim newPath) in *.
  rewrite effects_bind, createMissingParents_effects.
  rewrite effects_bind.
  rewrite (forEach_effects _
             (fun p : MyPage => RenamePage (id p) (newPagePath currentPage target p)))
    by reflexivity.
  rewrite effects_bind. cbn [getPages value editor effects app].
  rewrite navigation_effects.
  eexists. reflexivity.
Qed.

(** The loop of [handleRename] runs through the ancestors of the target,
    outermost first. *)
Lemma loopPaths_prefixes :
  forall (segs : list string) (currentPath : string),
    loopPaths currentPath (removelast segs)
    = map (fun k => currentPath ++ "/" ++ join "/" (firstn k segs))
        (seq 1 (List.length segs - 1)).
Proof.
  induction segs as [|p r IH]; intros currentPath; [reflexivity|].
  destruct r as [|q r']; [reflexivity|].
  change (removelast (p :: q :: r')) with (p :: removelast (q :: r')).
  cbn [loopPaths]. rewrite IH.
  replace (List.length (p :: q :: r') - 1) with (S (List.length (q :: r') - 1))
    by (simpl; lia).
  cbn [seq map]. f_equal.
  rewrite <- (seq_shift _ 1), map_map.
  apply map_ext_in. intros k Hk. apply in_seq in Hk.
  destruct k as [|k]; [lia|].
  change (firstn (S (S k)) (p :: q :: r')) with (p :: q :: firstn k r').
  change (firstn (S k) (q :: r')) with (q :: firstn k r').
  change (join "/" (p :: q :: firstn k r'))
    with (p ++ "/" ++ join "/" (q :: firstn k r')).
  now rewrite !append_assoc.
Qed.

Lemma loopPaths_ancestorPaths (target : string) :
  loopPaths "" (removelast (segments target)) = ancestorPaths target.
Proof. unfold ancestorPaths. now rewrite loopPaths_prefixes. Qed.

(* ================================================================= *)
(** ** Renaming: [handleRename] *)

(** C4: a rename that goes through first creates the ancestors of the
    target that no node has as its path, outermost first, and only then
    renames the page and its descendants; after the renames it does nothing
    but navigate. *)
Theorem rename_creates_missing_ancestors_first (newPath : string)
  (currentPage : MyPage) (allPages : list MyPage) (ed : Editor) :
  name currentPage <> "/" ->
  trim newPath <> "" ->
  trim newPath <> name currentPage ->
  find (fun p : MyPage => name p =? normalizedTarget newPath) allPages = None ->
  exists nav : list Effect,
    effects (handleRename (Some newPath) currentPage allPages ed)
    = (Prompt "Enter new page path:" (name currentPage)
       :: map CreatePage
            (filter (missingIn allPages) (ancestorPaths (normalizedTarget newPath)))
       ++ map (fun p : MyPage =>
                 RenamePage (id p)
                   (newPagePath currentPage (normalizedTarget newPath) p))
            (currentPage :: findAllChildPages currentPage allPages)
       ++ nav)%list
    /\ forall e, In e nav -> exists i, e = SetCurrentPage i.
Proof.
  intros Hroot H1 H2 Hfind.
  destruct (handleRename_success newPath currentPage allPages ed
              Hroot H1 H2 Hfind) as [ed' E].
  exists (navigation (normalizedTarget newPath) ed').
  rewrite <- loopPaths_ancestorPaths. split; [exact E|].
  unfold navigation. intros e He.
  destruct (find (fun p : TLPage => name p =? normalizedTarget newPath) (pages ed'))
    as [p|]; [|contradiction].
  destruct He as [He|[]]. exists (id p). now symmetry.
Qed.

Lemma rename_creates_missing_ancestors_first_witness :
  exists nav : list Effect,
    effects (handleRename (Some "/x/y") (pg 1 "/a")
               [pg 0 "/"; pg 1 "/a"; pg 2 "/a/c"]
               (editorOf [pg 0 "/"; pg 1 "/a"; pg 2 "/a/c"]))
    = (Prompt "Enter new page path:" "/a"
       :: [CreatePage "/x"]
       ++ [RenamePage 1 "/x/y"; RenamePage 2 "/x/y/c"]
       ++ nav)%list
    /\ forall e, In e nav -> exists i, e = SetCurrentPage i.
Proof.
  apply (rename_creates_missing_ancestors_first "/x/y" (pg 1 "/a")
           [pg 0 "/"; pg 1 "/a"; pg 2 "/a/c"]
           (editorOf [pg 0 "/"; pg 1 "/a"; pg 2 "/a/c"])).
  - discriminate.
  - discriminate.
  - discriminate.
  - reflexivity.
Defined.

(** C10: typing the current path again, with or without white space around
    it, does nothing: the prompt is the only effect, no error is reported
    and the editor is as it was. *)
Theorem rename_to_current_path_is_noop (newPath : string)
  (currentPage : MyPage) (allPages : list MyPage) (ed : Editor) :
  name currentPage <> "/" ->
  trim newPath = name currentPage ->
  editor (handleRename (Some newPath) currentPage allPages ed) = ed
  /\ effects (handleRename (Some newPath) currentPage allPages ed)
     = [Prompt "Enter new page path:" (name currentPage)].
Proof.
  intros Hroot Htrim.
  rewrite (handleRename_ignored (Some newPath) currentPage allPages ed Hroot
             (or_intror Htrim)).
  split; reflexivity.
Qed.

Lemma rename_to_current_path_is_noop_witness :
  editor (handleRename (Some "  /a ") (pg 1 "/a")
            [pg 0 "/"; pg 1 "/a"; pg 2 "/a/c"]
            (editorOf [pg 0 "/"; pg 1 "/a"; pg 2 "/a/c"]))
  = editorOf [pg 0 "/"; pg 1 "/a"; pg 2 "/a/c"]
  /\ effects (handleRename (Some "  /a ") (pg 1 "/a")
                [pg 0 "/"; pg 1 "/a"; pg 2 "/a/c"]
                (editorOf [pg 0 "/"; pg 1 "/a"; pg 2 "/a/c"]))
     = [Prompt "Enter new page path:" "/a"].
Proof.
  apply (rename_to_current_path_is_noop "  /a " (pg 1 "/a")).
  - discriminate.
  - reflexivity.
Defined.

(** C2, the failing input: the page [/a] renamed to [a]. The guard compares
    the trimmed answer with the current path before the leading slash is
    added, so the answer passes it, normalizes to the page's own path, and
    the page itself is found as the occupant: AlreadyExists is reported
    although no other node has that path. *)
Theorem rename_to_own_path_unslashed_reports_AlreadyExists :
  normalizedTarget "a" = name (pg 1 "/a")
  /\ (forall q : MyPage,
        In q [pg 0 "/"; pg 1 "/a"] -> name q = normalizedTarget "a" ->
        q = pg 1 "/a")
  /\ effects (handleRename (Some "a") (pg 1 "/a") [pg 0 "/"; pg 1 "/a"]
                (editorOf [pg 0 "/"; pg 1 "/a"]))
     = [Prompt "Enter new page path:" "/a"; AlreadyExistsPath].
Proof.
  split; [reflexivity|]. split; [|reflexivity].
  intros q [H|[H|[]]] Hn; subst q; [discriminate Hn|reflexivity].
Qed.

(** What does hold of the two errors of a rename: the root is refused
    exactly when the path of the page is the slash, and AlreadyExists is
    reported exactly when the answer passes the guard and some node, the
    page itself included, has the normalized target as its path. *)
Lemma handleRename_errors (answer : option string) (currentPage : MyPage)
  (allPages : list MyPage) (ed : Editor) :
  (In CannotRenameRoot (effects (handleRename answer currentPage allPages ed))
   <-> name currentPage = "/")
  /\ (In AlreadyExistsPath (effects (handleRename answer currentPage allPages ed))
      <-> name currentPage <> "/"
          /\ exists newPath,
               answer = Some newPath /\ trim newPath <> ""
               /\ trim newPath <> name currentPage
               /\ exists q, In q allPages /\ name q = normalizedTarget newPath).
Proof.
  destruct (String.eqb_spec (name currentPage) "/") as [Hroot|Hroot].
  - rewrite (handleRename_root _ _ _ _ Hroot). cbn [effects]. split.
    + split; [auto|]. intros _. now left.
    + split; [|tauto]. intros [H|[]]. discriminate H.
  - assert (Hno : forall l : list Effect,
               (forall e, In e l -> isMutation e = true
                                    \/ (exists i, e = SetCurrentPage i)
                                    \/ (exists m d, e = Prompt m d)) ->
               ~ In CannotRenameRoot l /\ ~ In AlreadyExistsPath l).
    { intros l Hl. split; intros Hin; apply Hl in Hin;
        destruct Hin as [H|[[i H]|[m [d H]]]]; discriminate H. }
    destruct answer as [newPath|].
    2:{ rewrite (handleRename_ignored None _ _ _ Hroot I). cbn [effects]. split.
        - split; [|contradiction]. intros [H|[]]. discriminate H.
        - split; [intros [H|[]]; discriminate H|].
          intros [_ [s [H _]]]. discriminate H. }
    destruct (String.eqb_spec (trim newPath) "") as [E1|E1].
    { rewrite (handleRename_ignored (Some newPath) _ _ _ Hroot (or_introl E1)).
      cbn [effects]. split.
      - split; [|contradiction]. intros [H|[]]. discriminate H.
      - split; [intros [H|[]]; discriminate H|].
        intros [_ [s [H [H' _]]]]. injection H as <-. contradiction. }
    destruct (String.eqb_spec (trim newPath) (name currentPage)) as [E2|E2].
    { rewrite (handleRename_ignored (Some newPath) _ _ _ Hroot (or_intror E2)).
      cbn [effects]. split.
      - split; [|contradiction]. intros [H|[]]. discriminate H.
      - split; [intros [H|[]]; discriminate H|].
        intros [_ [s [H [_ [H' _]]]]]. injection H as <-. contradiction. }
    destruct (find (fun p : MyPage => name p =? normalizedTarget newPath) allPages)
      as [q|] eqn:F.
    + rewrite (handleRename_occupied _ _ q _ _ Hroot E1 E2 F). cbn [effects].
      split.
      * split; [|contradiction]. intros [H|[H|[]]]; discriminate H.
      * split; [|intros _; right; now left].
        intros _. split; [assumption|]. exists newPath.
        repeat split; try assumption.
        exists q. now apply find_some_name.
    + destruct (handleRename_success _ _ _ ed Hroot E1 E2 F) as [ed' E].
      rewrite E. clear E.
      match goal with |- context [In _ ?l] => destruct (Hno l) as [N1 N2] end.
      { intros e [He|He]; [right; right; eauto|].
        apply in_app_or in He. destruct He as [He|He].
        { apply in_map_iff in He. destruct He as [x [<- _]]. now left. }
        apply in_app_or in He. destruct He as [He|He].
        { apply in_map_iff in He. destruct He as [x [<- _]]. now left. }
        unfold navigation in He.
        destruct (find _ (pages ed')) as [p|]; [|contradiction].
        destruct He as [<-|[]]. right; left; eauto. }
      split.
      * split; [intros H; now elim N1|contradiction].
      * split; [intros H; now elim N2|].
        intros [_ [s [H [_ [_ [q' [Hin Hname]]]]]]]. injection H as <-.
        exfalso. apply (find_none _ _ F) in Hin.
        rewrite Hname, String.eqb_refl in Hin. discriminate.
Qed.

Lemma find_name_exists (allPages : list MyPage) (path : string) :
  (exists q, In q allPages /\ name q = path) ->
  exists q', find (fun p : MyPage => name p =? path) allPages = Some q'.
Proof.
  intros [q [Hin Hname]].
  destruct (find (fun p : MyPage => name p =? path) allPages) as [q'|] eqn:F;
    [now exists q'|].
  apply (find_none _ _ F) in Hin.
  rewrite Hname, String.eqb_refl in Hin. discriminate.
Qed.

(* ================================================================= *)
(** ** Creating a page: [handleAdd] *)

(** A dismissed prompt and a blank name leave the handler after the
    prompt. *)
Lemma handleAdd_ignored (answer : option string) (currentPage : MyPage)
  (allPages : list MyPage) (ed : Editor) :
  match answer with
  | None => True
  | Some pageName => trim pageName = ""
  end ->
  handleAdd answer currentPage allPages ed
  = mkOutcome tt ed [Prompt "Enter page name:" ""].
Proof.
  intros Hans. unfold handleAdd, bind, prompt. cbn [value editor effects].
  destruct answer as [pageName|]; [|reflexivity].
  rewrite truthy_trim, Hans. reflexivity.
Qed.

(** An occupied candidate path stops the handler at the alert. *)
Lemma handleAdd_occupied (pageName : string) (currentPage q : MyPage)
  (allPages : list MyPage) (ed : Editor) :
  trim pageName <> "" ->
  find (fun p : MyPage => name p =? candidatePath currentPage pageName) allPages
  = Some q ->
  handleAdd (Some pageName) currentPage allPages ed
  = mkOutcome tt ed [Prompt "Enter page name:" ""; AlreadyExistsName].
Proof.
  intros H1 F. unfold handleAdd, bind, prompt. cbn [value editor effects].
  rewrite truthy_trim. apply truthy_true in H1. rewrite H1.
  unfold candidatePath in F. rewrite F. reflexivity.
Qed.

(** A free candidate path: one page is created with that path, after the
    pages the editor has, and the handler navigates to the first page of
    the editor that has the path. *)
Lemma handleAdd_success (pageName : string) (currentPage : MyPage)
  (allPages : list MyPage) (ed : Editor) :
  trim pageName <> "" ->
  find (fun p : MyPage => name p =? candidatePath currentPage pageName) allPages
  = None ->
  exists i : TLPageId,
    handleAdd (Some pageName) currentPage allPages ed
    = mkOutcome tt
        {| pages := pages ed
                    ++ [mkPage (nextId ed) (candidatePath currentPage pageName)];
           currentPageId := i;
           nextId := S (nextId ed) |}
        [Prompt "Enter page name:" "";
         CreatePage (candidatePath currentPage pageName);
         SetCurrentPage i].
Proof.
  intros H1 F. unfold handleAdd, bind, prompt. cbn [value editor effects].
  rewrite truthy_trim. apply truthy_true in H1. rewrite H1.
  unfold candidatePath in *. rewrite F.
  set (fullPath := (if name currentPage =? "/" then "" else name currentPage)
                   ++ "/" ++ trim pageName) in *.
  unfold getPages, createPage. cbn [value editor effects pages app].
  destruct (find (fun p : TLPage => name p =? fullPath)
              (pages ed ++ [mkPage (nextId ed) fullPath])) as [p|] eqn:G.
  - exists (id p). reflexivity.
  - exfalso.
    assert (Hin : In (mkPage (nextId ed) fullPath)
                    (pages ed ++ [mkPage (nextId ed) fullPath]))
      by (apply in_or_app; right; now left).
    apply (find_none _ _ G) in Hin. cbn [name] in Hin.
    rewrite String.eqb_refl in Hin. discriminate.
Qed.

(** C7, as the code has it: a dismissed prompt or a blank name does
    nothing; a name that is not blank is trimmed, and the candidate path is
    the parent path (empty for the root), a slash and the trimmed name;
    AlreadyExists is reported, and nothing else done, exactly when some
    node has that very path; otherwise exactly one page is created, with
    that path. *)
Theorem create_candidate_path (answer : option string) (currentPage : MyPage)
  (allPages : list MyPage) (ed : Editor) :
  (answer = None ->
   handleAdd answer currentPage allPages ed
   = mkOutcome tt ed [Prompt "Enter page name:" ""])
  /\ (forall pageName : string,
        answer = Some pageName ->
        trim pageName = "" ->
        handleAdd answer currentPage allPages ed
        = mkOutcome tt ed [Prompt "Enter page name:" ""])
  /\ (forall pageName : string,
        answer = Some pageName ->
        trim pageName <> "" ->
        (In AlreadyExistsName
            (effects (handleAdd answer currentPage allPages ed))
         <-> exists q,
               In q allPages /\ name q = candidatePath currentPage pageName)
        /\ ((exists q,
               In q allPages /\ name q = candidatePath currentPage pageName) ->
            handleAdd answer currentPage allPages ed
            = mkOutcome tt ed [Prompt "Enter page name:" ""; AlreadyExistsName])
        /\ (~ (exists q,
                 In q allPages /\ name q = candidatePath currentPage pageName) ->
            exists i,
              effects (handleAdd answer currentPage allPages ed)
              = [Prompt "Enter page name:" "";
                 CreatePage (candidatePath currentPage pageName);
                 SetCurrentPage i]
              /\ pages (editor (handleAdd answer currentPage allPages ed))
                 = (pages ed
                    ++ [mkPage (nextId ed)
                          (candidatePath currentPage pageName)])%list)).
Proof.
  split; [|split].
  - intros ->. now apply (handleAdd_ignored None).
  - intros pageName -> E. now apply (handleAdd_ignored (Some pageName)).
  - intros pageName -> H1.
    destruct (find (fun p : MyPage =>
                      name p =? candidatePath currentPage pageName) allPages)
      as [q|] eqn:F.
    + pose proof (find_some_name _ _ _ F) as Hq.
      rewrite (handleAdd_occupied _ _ q _ _ H1 F). cbn [effects].
      split; [split|split].
      * intros _. now exists q.
      * intros _. right. now left.
      * intros _. reflexivity.
      * intros N. exfalso. apply N. now exists q.
    + assert (N : ~ (exists q, In q allPages
                               /\ name q = candidatePath currentPage pageName)).
      { intros Hex. apply find_name_exists in Hex. destruct Hex as [q' Hq'].
        congruence. }
      destruct (handleAdd_success _ _ _ ed H1 F) as [i E]. rewrite E.
      cbn [effects editor pages]. split; [split|split].
      * intros [H|[H|[H|[]]]]; discriminate H.
      * intros Hex. now elim N.
      * intros Hex. now elim N.
      * intros _. exists i. split; reflexivity.
Qed.

Lemma create_candidate_path_witness :
  handleAdd None (pg 1 "/a") [pg 0 "/"; pg 1 "/a"]
    (editorOf [pg 0 "/"; pg 1 "/a"])
  = mkOutcome tt (editorOf [pg 0 "/"; pg 1 "/a"]) [Prompt "Enter page name:" ""]
  /\ handleAdd (Some "   ") (pg 1 "/a") [pg 0 "/"; pg 1 "/a"]
       (editorOf [pg 0 "/"; pg 1 "/a"])
     = mkOutcome tt (editorOf [pg 0 "/"; pg 1 "/a"])
         [Prompt "Enter page name:" ""]
  /\ (exists i,
        effects (handleAdd (Some "b") (pg 1 "/a") [pg 0 "/"; pg 1 "/a"]
                   (editorOf [pg 0 "/"; pg 1 "/a"]))
        = [Prompt "Enter page name:" ""; CreatePage "/a/b"; SetCurrentPage i]
        /\ pages (editor (handleAdd (Some "b") (pg 1 "/a")
                            [pg 0 "/"; pg 1 "/a"]
                            (editorOf [pg 0 "/"; pg 1 "/a"])))
           = [mkPage 0 "/"; mkPage 1 "/a"; mkPage 100 "/a/b"])
  /\ handleAdd (Some "b") (pg 1 "/a") [pg 0 "/"; pg 1 "/a"; pg 100 "/a/b"]
       (editorOf [pg 0 "/"; pg 1 "/a"; pg 100 "/a/b"])
     = mkOutcome tt (editorOf [pg 0 "/"; pg 1 "/a"; pg 100 "/a/b"])
         [Prompt "Enter page name:" ""; AlreadyExistsName].
Proof.
  split; [|split; [|split]].
  - apply (proj1 (create_candidate_path None (pg 1 "/a") [pg 0 "/"; pg 1 "/a"]
                    (editorOf [pg 0 "/"; pg 1 "/a"]))).
    reflexivity.
  - apply (proj1 (proj2 (create_candidate_path (Some "   ") (pg 1 "/a")
                           [pg 0 "/"; pg 1 "/a"]
                           (editorOf [pg 0 "/"; pg 1 "/a"]))) "   ");
      reflexivity.
  - apply (proj2 (proj2 (create_candidate_path (Some "b") (pg 1 "/a")
                           [pg 0 "/"; pg 1 "/a"]
                           (editorOf [pg 0 "/"; pg 1 "/a"]))) "b").
    + reflexivity.
    + discriminate.
    + intros [q [[H|[H|[]]] Hn]]; subst q; discriminate Hn.
  - apply (proj2 (proj2 (create_candidate_path (Some "b") (pg 1 "/a")
                           [pg 0 "/"; pg 1 "/a"; pg 100 "/a/b"]
                           (editorOf [pg 0 "/"; pg 1 "/a"; pg 100 "/a/b"]))) "b").
    + reflexivity.
    + discriminate.
    + exists (pg 100 "/a/b"). split; [right; right; now left|reflexivity].
Defined.

(** C7, as stated, fails on a blank name and on a name with white space
    around it: at the root the empty name gives the candidate [/], which the
    root occupies, and no AlreadyExists is reported; and [ b] under [/a]
    gives the candidate [/a/ b], which no node has, yet AlreadyExists is
    reported, for [/a/b]. *)
Lemma create_blank_or_padded_name :
  ((exists q, In q [pg 0 "/"] /\ name q = "" ++ "/" ++ "")
   /\ ~ In AlreadyExistsName
        (effects (handleAdd (Some "") (pg 0 "/") [pg 0 "/"]
                    (editorOf [pg 0 "/"]))))
  /\ (~ (exists q,
           In q [pg 0 "/"; pg 1 "/a"; pg 2 "/a/b"]
           /\ name q = "/a" ++ "/" ++ " b")
      /\ In AlreadyExistsName
           (effects (handleAdd (Some " b") (pg 1 "/a")
                       [pg 0 "/"; pg 1 "/a"; pg 2 "/a/b"]
                       (editorOf [pg 0 "/"; pg 1 "/a"; pg 2 "/a/b"])))).
Proof.
  split; split.
  - exists (pg 0 "/"). split; [now left|reflexivity].
  - cbn. intros [H|[]]. discriminate H.
  - intros [q [[H|[H|[H|[]]]] Hn]]; subst q; discriminate Hn.
  - cbn. right. now left.
Qed.

(** When [handleAdd] reports AlreadyExists, the alert follows the prompt
    and the editor is untouched. *)
Lemma handleAdd_alreadyExists (answer : option string) (currentPage : MyPage)
  (allPages : list MyPage) (ed : Editor) :
  In AlreadyExistsName (effects (handleAdd answer currentPage allPages ed)) ->
  handleAdd answer currentPage allPages ed
  = mkOutcome tt ed [Prompt "Enter page name:" ""; AlreadyExistsName].
Proof.
  destruct answer as [pageName|].
  2:{ rewrite (handleAdd_ignored None _ _ _ I). cbn [effects].
      intros [H|[]]. discriminate H. }
  destruct (String.eqb_spec (trim pageName) "") as [E|E].
  { rewrite (handleAdd_ignored (Some pageName) _ _ _ E). cbn [effects].
    intros [H|[]]. discriminate H. }
  destruct (find (fun p : MyPage =>
                    name p =? candidatePath currentPage pageName) allPages)
    as [q|] eqn:F.
  - intros _. now apply (handleAdd_occupied _ _ q).
  - destruct (handleAdd_success _ _ _ ed E F) as [i Hs]. rewrite Hs.
    cbn [effects]. intros [H|[H|[H|[]]]]; discriminate H.
Qed.

(** When [handleRename] reports AlreadyExists, the alert follows the prompt
    and the editor is untouched. *)
Lemma handleRename_alreadyExists (answer : option string)
  (currentPage : MyPage) (allPages : list MyPage) (ed : Editor) :
  In AlreadyExistsPath (effects (handleRename answer currentPage allPages ed)) ->
  handleRename answer currentPage allPages ed
  = mkOutcome tt ed
      [Prompt "Enter new page path:" (name currentPage); AlreadyExistsPath].
Proof.
  intros Hin.
  apply (proj2 (handleRename_errors answer currentPage allPages ed)) in Hin.
  destruct Hin as [Hroot [newPath [-> [H1 [H2 Hex]]]]].
  apply find_name_exists in Hex. destruct Hex as [q F].
  now apply (handleRename_occupied _ _ q).
Qed.

(** C9: a create or a rename that reports AlreadyExists has done nothing
    else: after the prompt the alert is its only effect, so that no page
    was created, renamed or deleted, no ancestor made, and the editor is
    exactly as it was before the call. *)
Theorem alreadyExists_is_atomic (answer : option string) (currentPage : MyPage)
  (allPages : list MyPage) (ed : Editor) :
  (In AlreadyExistsName (effects (handleAdd answer currentPage allPages ed)) ->
   editor (handleAdd answer currentPage allPages ed) = ed
   /\ filter isMutation (effects (handleAdd answer currentPage allPages ed)) = []
   /\ effects (handleAdd answer currentPage allPages ed)
      = [Prompt "Enter page name:" ""; AlreadyExistsName])
  /\ (In AlreadyExistsPath
        (effects (handleRename answer currentPage allPages ed)) ->
      editor (handleRename answer currentPage allPages ed) = ed
      /\ filter isMutation
           (effects (handleRename answer currentPage allPages ed)) = []
      /\ effects (handleRename answer currentPage allPages ed)
         = [Prompt "Enter new page path:" (name currentPage);
            AlreadyExistsPath]).
Proof.
  split; intros Hin.
  - rewrite (handleAdd_alreadyExists _ _ _ _ Hin). repeat split.
  - rewrite (handleRename_alreadyExists _ _ _ _ Hin). repeat split.
Qed.

Lemma alreadyExists_is_atomic_witness :
  (editor (handleAdd (Some "c") (pg 1 "/a") [pg 0 "/"; pg 1 "/a"; pg 2 "/a/c"]
             (editorOf [pg 0 "/"; pg 1 "/a"; pg 2 "/a/c"]))
   = editorOf [pg 0 "/"; pg 1 "/a"; pg 2 "/a/c"]
   /\ filter isMutation
        (effects (handleAdd (Some "c") (pg 1 "/a")
                    [pg 0 "/"; pg 1 "/a"; pg 2 "/a/c"]
                    (editorOf [pg 0 "/"; pg 1 "/a"; pg 2 "/a/c"]))) = []
   /\ effects (handleAdd (Some "c") (pg 1 "/a")
                 [pg 0 "/"; pg 1 "/a"; pg 2 "/a/c"]
                 (editorOf [pg 0 "/"; pg 1 "/a"; pg 2 "/a/c"]))
      = [Prompt "Enter page name:" ""; AlreadyExistsName])
  /\ (editor (handleRename (Some "/x/y") (pg 1 "/a")
                [pg 0 "/"; pg 1 "/a"; pg 2 "/x/y"]
                (editorOf [pg 0 "/"; pg 1 "/a"; pg 2 "/x/y"]))
      = editorOf [pg 0 "/"; pg 1 "/a"; pg 2 "/x/y"]
      /\ filter isMutation
           (effects (handleRename (Some "/x/y") (pg 1 "/a")
                       [pg 0 "/"; pg 1 "/a"; pg 2 "/x/y"]
                       (editorOf [pg 0 "/"; pg 1 "/a"; pg 2 "/x/y"]))) = []
      /\ effects (handleRename (Some "/x/y") (pg 1 "/a")
                    [pg 0 "/"; pg 1 "/a"; pg 2 "/x/y"]
                    (editorOf [pg 0 "/"; pg 1 "/a"; pg 2 "/x/y"]))
         = [Prompt "Enter new page path:" "/a"; AlreadyExistsPath]).
Proof.
  split.
  - apply (proj1 (alreadyExists_is_atomic (Some "c") (pg 1 "/a")
                    [pg 0 "/"; pg 1 "/a"; pg 2 "/a/c"]
                    (editorOf [pg 0 "/"; pg 1 "/a"; pg 2 "/a/c"]))).
    cbn. right. now left.
  - apply (proj2 (alreadyExists_is_atomic (Some "/x/y") (pg 1 "/a")
                    [pg 0 "/"; pg 1 "/a"; pg 2 "/x/y"]
                    (editorOf [pg 0 "/"; pg 1 "/a"; pg 2 "/x/y"]))).
    cbn. right. now left.
Defined.

(* ================================================================= *)
(** ** Descendants and the rewriting of their paths *)

Lemma prefix_append (a b : string) : String.prefix a (a ++ b) = true.
Proof.
  induction a as [|c a IH]; simpl; [now destruct b|].
  destruct (Ascii.ascii_dec c c) as [_|N]; [exact IH|now elim N].
Qed.

Lemma prefix_split (a b : string) :
  String.prefix a b = true -> exists rest, b = a ++ rest.
Proof.
  revert b. induction a as [|c a IH]; intros b H.
  - now exists b.
  - destruct b as [|d b]; [discriminate|]. simpl in H.
    destruct (Ascii.ascii_dec c d) as [->|N]; [|discriminate].
    destruct (IH b H) as [rest ->]. now exists rest.
Qed.

Lemma sliceFrom_append (a b : string) : sliceFrom (String.length a) (a ++ b) = b.
Proof. induction a as [|c a IH]; simpl; [reflexivity|exact IH]. Qed.

Lemma firstMatch_at_start (pat rest : string) :
  firstMatch pat (pat ++ rest) = Some ("", rest).
Proof.
  assert (U : forall s, firstMatch pat s
                        = if String.prefix pat s
                          then Some ("", sliceFrom (String.length pat) s)
                          else match s with
                               | "" => None
                               | String c t =>
                                   match firstMatch pat t with
                                   | Some (before, after) =>
                                       Some (String c before, after)
                                   | None => None
                                   end
                               end)
    by (intros s; destruct s; reflexivity).
  rewrite U, prefix_append, sliceFrom_append. reflexivity.
Qed.

Lemma getSubstitution_dollarFree (matched before after template : string) :
  dollarFree template = true ->
  getSubstitution matched before after template = template.
Proof.
  induction template as [|c r IH]; [reflexivity|].
  simpl. intros H. apply andb_true_iff in H. destruct H as [Hc Hr].
  apply negb_true_iff in Hc. rewrite Hc. now rewrite IH.
Qed.

(** With no dollar sign in the replacement, replacing a prefix keeps the
    remainder as it is. *)
Lemma replace_prefix_dollarFree (pat repl rest : string) :
  dollarFree repl = true -> replace (pat ++ rest) pat repl = repl ++ rest.
Proof.
  intros H. unfold replace. rewrite firstMatch_at_start.
  now rewrite getSubstitution_dollarFree.
Qed.

Lemma startsWith_slash (s : string) :
  startsWith s "/" = true -> s = String "/" (slice1 s).
Proof.
  destruct s as [|c t]; [discriminate|]. unfold startsWith.
  cbn [String.prefix slice1].
  destruct (Ascii.ascii_dec "/" c) as [<-|N]; intros H;
    [reflexivity|discriminate H].
Qed.

Lemma normalizedTarget_slash (newPath : string) :
  startsWith (normalizedTarget newPath) "/" = true.
Proof.
  unfold normalizedTarget. cbv zeta.
  destruct (startsWith (trim newPath) "/") eqn:E; [exact E|].
  unfold startsWith. simpl. now destruct (trim newPath).
Qed.

(** On paths that start with a slash, the children [findAllChildPages]
    finds for a page other than the root are the other pages whose path
    starts with the path of the page followed by a slash. *)
Lemma findAllChildPages_descendants (parentPage : MyPage)
  (allPages : list MyPage) :
  name parentPage <> "/" ->
  startsWith (name parentPage) "/" = true ->
  (forall p : MyPage, In p allPages -> startsWith (name p) "/" = true) ->
  findAllChildPages parentPage allPages
  = filter (fun p : MyPage =>
              negb (Nat.eqb (id p) (id parentPage)) && isDescendant parentPage p)
      allPages.
Proof.
  intros Hroot Hs Hall. unfold findAllChildPages.
  apply String.eqb_neq in Hroot. rewrite Hroot.
  apply filter_ext_in. intros p Hp.
  destruct (Nat.eqb (id p) (id parentPage)); [reflexivity|].
  cbn [negb andb]. unfold isDescendant.
  rewrite (startsWith_slash _ Hs) at 3.
  rewrite (startsWith_slash _ (Hall p Hp)) at 3.
  assert (Hne : (slice1 (name parentPage) =? "") = false).
  { apply String.eqb_neq. intros E.
    rewrite (startsWith_slash _ Hs), E in Hroot.
    rewrite String.eqb_refl in Hroot. discriminate. }
  rewrite Hne. cbn [andb]. rewrite orb_false_r.
  unfold startsWith. simpl.
  destruct (Ascii.ascii_dec "/" "/") as [_|N]; [reflexivity|now elim N].
Qed.

(** The page renamed gets the target; with no dollar sign in the target, a
    page whose path is the old path, a slash and a remainder gets the
    target, a slash and that remainder. *)
Lemma newPagePath_prefix (currentPage p : MyPage) (newPath rest : string) :
  newPagePath currentPage (normalizedTarget newPath) currentPage
  = normalizedTarget newPath
  /\ (startsWith (name currentPage) "/" = true ->
      dollarFree (normalizedTarget newPath) = true ->
      id p <> id currentPage ->
      name p = name currentPage ++ "/" ++ rest ->
      newPagePath currentPage (normalizedTarget newPath) p
      = normalizedTarget newPath ++ "/" ++ rest).
Proof.
  split.
  - unfold newPagePath. now rewrite Nat.eqb_refl.
  - intros Hs Hd Hid Hname. unfold newPagePath.
    apply Nat.eqb_neq in Hid. rewrite Hid. rewrite Hname.
    pose proof (normalizedTarget_slash newPath) as Ht.
    apply startsWith_slash in Ht. apply startsWith_slash in Hs.
    rewrite Ht in Hd. cbn [dollarFree] in Hd.
    rewrite Hs at 1. cbn [append slice1].
    rewrite replace_prefix_dollarFree by apply Hd.
    rewrite Ht at 2. reflexivity.
Qed.

(** On paths that start with a slash and a target free of dollar signs, a
    rename that goes through renames the page to the target and each of
    its descendants to the target followed by the remainder of its path,
    and renames no other page. *)
Lemma rename_rewrites_descendants (newPath : string) (currentPage : MyPage)
  (allPages : list MyPage) (ed : Editor) :
  name currentPage <> "/" ->
  trim newPath <> "" ->
  trim newPath <> name currentPage ->
  find (fun p : MyPage => name p =? normalizedTarget newPath) allPages = None ->
  startsWith (name currentPage) "/" = true ->
  (forall p : MyPage, In p allPages -> startsWith (name p) "/" = true) ->
  dollarFree (normalizedTarget newPath) = true ->
  In (RenamePage (id currentPage) (normalizedTarget newPath))
     (effects (handleRename (Some newPath) currentPage allPages ed))
  /\ (forall p : MyPage,
        In p (findAllChildPages currentPage allPages) ->
        exists rest,
          name p = name currentPage ++ "/" ++ rest
          /\ In (RenamePage (id p) (normalizedTarget newPath ++ "/" ++ rest))
               (effects (handleRename (Some newPath) currentPage allPages ed)))
  /\ (forall i n,
        In (RenamePage i n)
           (effects (handleRename (Some newPath) currentPage allPages ed)) ->
        exists p : MyPage,
          In p (currentPage :: findAllChildPages currentPage allPages)
          /\ id p = i).
Proof.
  intros Hroot H1 H2 Hfind Hs Hall Hd.
  destruct (handleRename_success _ _ _ ed Hroot H1 H2 Hfind) as [ed' E].
  rewrite E. clear E.
  set (target := normalizedTarget newPath) in *.
  assert (Hmid : forall p : MyPage,
             In p (currentPage :: findAllChildPages currentPage allPages) ->
             forall n, n = newPagePath currentPage target p ->
             In (RenamePage (id p) n)
               (Prompt "Enter new page path:" (name currentPage)
                :: map CreatePage (filter (missingIn allPages)
                      (loopPaths "" (removelast (segments target))))
                ++ map (fun p : MyPage =>
                          RenamePage (id p) (newPagePath currentPage target p))
                     (currentPage :: findAllChildPages currentPage allPages)
                ++ navigation target ed')%list).
  { intros p Hp n ->. right. apply in_or_app. right. apply in_or_app. left.
    apply in_map_iff. now exists p. }
  split; [|split].
  - apply (Hmid currentPage); [now left|].
    symmetry. apply (proj1 (newPagePath_prefix currentPage currentPage newPath "")).
  - intros p Hp.
    pose proof Hp as Hf.
    rewrite (findAllChildPages_descendants _ _ Hroot Hs Hall) in Hf.
    apply filter_In in Hf. destruct Hf as [Hin Hc].
    apply andb_true_iff in Hc. destruct Hc as [Hid Hdesc].
    apply negb_true_iff, Nat.eqb_neq in Hid.
    apply prefix_split in Hdesc. destruct Hdesc as [rest Hrest].
    rewrite append_assoc in Hrest.
    exists rest. split; [exact Hrest|].
    apply (Hmid p); [now right|].
    symmetry.
    now apply (proj2 (newPagePath_prefix currentPage p newPath rest)).
  - intros i n [Hin|Hin]; [discriminate Hin|].
    apply in_app_or in Hin. destruct Hin as [Hin|Hin].
    { apply in_map_iff in Hin. destruct Hin as [x [Hx _]]. discriminate Hx. }
    apply in_app_or in Hin. destruct Hin as [Hin|Hin].
    { apply in_map_iff in Hin. destruct Hin as [p [Hp Hin]].
      injection Hp as <- _. now exists p. }
    unfold navigation in Hin.
    destruct (find _ (pages ed')); [|contradiction].
    destruct Hin as [Hin|[]]. discriminate Hin.
Qed.

(** The scenario of the specification: among [/proj], [/proj2] and
    [/proj/sub], renaming [/proj] to [/work] leaves [/proj2] alone. *)
Example rename_proj_to_work :
  handleRename (Some "/work") (pg 1 "/proj")
    [pg 0 "/"; pg 1 "/proj"; pg 2 "/proj2"; pg 3 "/proj/sub"]
    (editorOf [pg 0 "/"; pg 1 "/proj"; pg 2 "/proj2"; pg 3 "/proj/sub"])
  = mkOutcome tt
      {| pages := [mkPage 0 "/"; mkPage 1 "/work"; mkPage 2 "/proj2";
                   mkPage 3 "/work/sub"];
         currentPageId := 1;
         nextId := 100 |}
      [Prompt "Enter new page path:" "/proj"; RenamePage 1 "/work";
       RenamePage 3 "/work/sub"; SetCurrentPage 1].
Proof. reflexivity. Qed.

(** C1, the failing input: [/proj] renamed to [/a$&b]. The target is handed
    to [replace] as its replacement text, in which [$&] stands for the
    matched text: the page itself gets [/a$&b], its descendant [/proj/sub]
    gets [/aprojb/sub], not the target followed by [/sub]. *)
Theorem rename_dollar_target_corrupts_descendant :
  handleRename (Some "/a$&b") (pg 1 "/proj")
    [pg 0 "/"; pg 1 "/proj"; pg 2 "/proj/sub"]
    (editorOf [pg 0 "/"; pg 1 "/proj"; pg 2 "/proj/sub"])
  = mkOutcome tt
      {| pages := [mkPage 0 "/"; mkPage 1 "/a$&b"; mkPage 2 "/aprojb/sub"];
         currentPageId := 1;
         nextId := 100 |}
      [Prompt "Enter new page path:" "/proj"; RenamePage 1 "/a$&b";
       RenamePage 2 "/aprojb/sub"; SetCurrentPage 1]
  /\ newPagePath (pg 1 "/proj") "/a$&b" (pg 2 "/proj/sub") <> "/a$&b" ++ "/sub".
Proof. split; [reflexivity|discriminate]. Qed.

(* ================================================================= *)
(** ** Deleting: [handleDelete] *)

Lemma deletions_app (l1 l2 : list Effect) :
  deletions (l1 ++ l2) = (deletions l1 ++ deletions l2)%list.
Proof.
  induction l1 as [|e l1 IH]; [reflexivity|].
  destruct e; simpl; now rewrite IH.
Qed.

Lemma deletions_map_DeletePage (l : list MyPage) :
  deletions (map (fun p : MyPage => DeletePage (id p)) l)
  = map (fun p : MyPage => id p) l.
Proof. induction l as [|p l IH]; simpl; [reflexivity|now rewrite IH]. Qed.

Lemma filter_twice {A : Type} (f g : A -> bool) (l : list A) :
  filter f (filter g l) = filter (fun x => g x && f x) l.
Proof.
  induction l as [|x l IH]; [reflexivity|].
  simpl. destruct (g x); simpl; [destruct (f x)|]; now rewrite IH.
Qed.

(** Deleting the pages of a list one by one leaves the pages of the editor
    whose identifier is not in the list. *)
Lemma forEach_deletePage_pages (l : list MyPage) :
  forall ed : Editor,
    pages (editor (forEach l (fun p : MyPage => deletePage p) ed))
    = filter (fun q : TLPage =>
                negb (existsb (fun p : MyPage => Nat.eqb (id q) (id p)) l))
        (pages ed).
Proof.
  induction l as [|x l IH]; intros ed.
  - simpl. induction (pages ed) as [|q r IHr]; [reflexivity|].
    simpl. now rewrite <- IHr.
  - cbn [forEach]. rewrite editor_bind, IH.
    unfold deletePage. cbn [editor pages value].
    rewrite filter_twice. apply filter_ext. intros q.
    cbn [existsb]. now rewrite negb_orb.
Qed.

Lemma findAllChildPages_not_self (parentPage : MyPage) (allPages : list MyPage) :
  ~ In (id parentPage)
      (map (fun p : MyPage => id p) (findAllChildPages parentPage allPages)).
Proof.
  intros Hin. apply in_map_iff in Hin. destruct Hin as [p [Hid Hp]].
  unfold findAllChildPages in Hp. apply filter_In in Hp. destruct Hp as [_ Hc].
  rewrite Hid, Nat.eqb_refl in Hc. discriminate.
Qed.

Lemma NoDup_map_filter {A B : Type} (f : A -> B) (g : A -> bool) (l : list A) :
  NoDup (map f l) -> NoDup (map f (filter g l)).
Proof.
  induction l as [|x l IH]; intros H; [constructor|].
  inversion H as [|y m Hnin Hnd]; subst. simpl.
  destruct (g x); [|now apply IH].
  simpl. constructor; [|now apply IH].
  intros Hin. apply Hnin. apply in_map_iff in Hin.
  destruct Hin as [z [Hz Hin]]. apply filter_In in Hin.
  apply in_map_iff. exists z. tauto.
Qed.

(** A dialog that is not confirmed ends the handler. *)
Lemma handleDelete_cancelled (currentPage : MyPage) (allPages : list MyPage)
  (ed : Editor) :
  handleDelete false currentPage allPages ed
  = mkOutcome tt ed
      [Confirm (confirmMessage currentPage
                  (findAllChildPages currentPage allPages))].
Proof. reflexivity. Qed.

(** The root is refused once the dialog is confirmed. *)
Lemma handleDelete_root (currentPage : MyPage) (allPages : list MyPage)
  (ed : Editor) :
  name currentPage = "/" ->
  handleDelete true currentPage allPages ed
  = mkOutcome tt ed
      [Confirm (confirmMessage currentPage
                  (findAllChildPages currentPage allPages));
       CannotDeleteRoot].
Proof.
  intros H. unfold handleDelete, bind, confirm. cbn [value editor effects].
  rewrite H. reflexivity.
Qed.

(** Any other page is deleted with its children, the page first, and the
    handler then navigates to the parent when the collection has it. *)
Lemma handleDelete_confirmed (currentPage : MyPage) (allPages : list MyPage)
  (ed : Editor) :
  name currentPage <> "/" ->
  exists nav : list Effect,
    effects (handleDelete true currentPage allPages ed)
    = (Confirm (confirmMessage currentPage
                  (findAllChildPages currentPage allPages))
       :: map (fun p : MyPage => DeletePage (id p))
            (currentPage :: findAllChildPages currentPage allPages)
       ++ nav)%list
    /\ deletions nav = []
    /\ pages (editor (handleDelete true currentPage allPages ed))
       = filter (fun q : TLPage =>
                   negb (existsb (fun p : MyPage => Nat.eqb (id q) (id p))
                           (currentPage :: findAllChildPages currentPage allPages)))
           (pages ed).
Proof.
  intros Hroot. apply String.eqb_neq in Hroot.
  unfold handleDelete. rewrite effects_bind, editor_bind.
  unfold confirm. cbn [value editor effects]. rewrite Hroot.
  rewrite effects_bind, editor_bind. unfold deletePageAndChildren.
  rewrite (forEach_effects _ (fun p : MyPage => DeletePage (id p)))
    by reflexivity.
  set (del := forEach (currentPage :: findAllChildPages currentPage allPages)
                (fun page : MyPage => deletePage page) ed).
  pose proof (forEach_deletePage_pages
                (currentPage :: findAllChildPages currentPage allPages) ed) as P.
  fold del in P.
  destruct (find _ allPages) as [target|].
  - exists [SetCurrentPage (id target)]. repeat split. exact P.
  - exists []. repeat split. exact P.
Qed.

(** C3: a confirmed delete of a page other than the root deletes exactly
    the page and its descendants, one more page than it has descendants,
    the page not being among them; a delete of the root deletes nothing and
    leaves the editor as it was, and once confirmed it is refused with
    CannotDeleteRoot. *)
Theorem delete_removes_node_and_descendants (currentPage : MyPage)
  (allPages : list MyPage) (ed : Editor) :
  (name currentPage <> "/" ->
   deletions (effects (handleDelete true currentPage allPages ed))
   = map (fun p : MyPage => id p)
       (currentPage :: findAllChildPages currentPage allPages)
   /\ List.length (deletions (effects (handleDelete true currentPage allPages ed)))
      = 1 + List.length (findAllChildPages currentPage allPages)
   /\ ~ In (id currentPage)
         (map (fun p : MyPage => id p) (findAllChildPages currentPage allPages))
   /\ (NoDup (map (fun p : MyPage => id p) allPages) ->
       NoDup (deletions (effects (handleDelete true currentPage allPages ed))))
   /\ (startsWith (name currentPage) "/" = true ->
       (forall p : MyPage, In p allPages -> startsWith (name p) "/" = true) ->
       forall p : MyPage,
         In p (findAllChildPages currentPage allPages)
         <-> In p allPages /\ id p <> id currentPage
             /\ isDescendant currentPage p = true)
   /\ pages (editor (handleDelete true currentPage allPages ed))
      = filter (fun q : TLPage =>
                  negb (existsb (fun p : MyPage => Nat.eqb (id q) (id p))
                          (currentPage :: findAllChildPages currentPage allPages)))
          (pages ed))
  /\ (name currentPage = "/" ->
      forall confirmed : bool,
        editor (handleDelete confirmed currentPage allPages ed) = ed
        /\ deletions (effects (handleDelete confirmed currentPage allPages ed)) = []
        /\ (confirmed = true ->
            In CannotDeleteRoot
               (effects (handleDelete confirmed currentPage allPages ed)))).
Proof.
  split.
  - intros Hroot.
    destruct (handleDelete_confirmed currentPage allPages ed Hroot)
      as [nav [E [Hnav P]]].
    assert (D : deletions (effects (handleDelete true currentPage allPages ed))
                = map (fun p : MyPage => id p)
                    (currentPage :: findAllChildPages currentPage allPages)).
    { rewrite E. cbn [deletions]. rewrite deletions_app, Hnav, app_nil_r.
      apply deletions_map_DeletePage. }
    pose proof (findAllChildPages_not_self currentPage allPages) as Hself.
    split; [exact D|].
    split; [rewrite D; now rewrite length_map|].
    split; [exact Hself|].
    split.
    { intros Hnd. rewrite D. cbn [map]. constructor; [exact Hself|].
      unfold findAllChildPages. now apply NoDup_map_filter. }
    split; [|exact P].
    intros Hs Hall p.
    rewrite (findAllChildPages_descendants _ _ Hroot Hs Hall).
    rewrite filter_In, andb_true_iff, negb_true_iff, Nat.eqb_neq.
    tauto.
  - intros Hroot [|].
    + rewrite (handleDelete_root _ _ _ Hroot). cbn [editor effects].
      repeat split. intros _. right. now left.
    + rewrite handleDelete_cancelled. cbn [editor effects].
      repeat split. discriminate.
Qed.

Lemma delete_removes_node_and_descendants_witness :
  (deletions
     (effects (handleDelete true (pg 1 "/a")
                 [pg 0 "/"; pg 1 "/a"; pg 2 "/a/b"; pg 3 "/a/b/c"; pg 4 "/ab"]
                 (editorOf
                    [pg 0 "/"; pg 1 "/a"; pg 2 "/a/b"; pg 3 "/a/b/c"; pg 4 "/ab"])))
   = [1; 2; 3]
   /\ pages
        (editor (handleDelete true (pg 1 "/a")
                   [pg 0 "/"; pg 1 "/a"; pg 2 "/a/b"; pg 3 "/a/b/c"; pg 4 "/ab"]
                   (editorOf
                      [pg 0 "/"; pg 1 "/a"; pg 2 "/a/b"; pg 3 "/a/b/c";
                       pg 4 "/ab"])))
      = [mkPage 0 "/"; mkPage 4 "/ab"])
  /\ In CannotDeleteRoot
       (effects (handleDelete true (pg 0 "/") [pg 0 "/"; pg 1 "/a"]
                   (editorOf [pg 0 "/"; pg 1 "/a"]))).
Proof.
  split.
  - assert (Hroot : name (pg 1 "/a") <> "/") by discriminate.
    destruct (proj1 (delete_removes_node_and_descendants (pg 1 "/a")
                [pg 0 "/"; pg 1 "/a"; pg 2 "/a/b"; pg 3 "/a/b/c"; pg 4 "/ab"]
                (editorOf
                   [pg 0 "/"; pg 1 "/a"; pg 2 "/a/b"; pg 3 "/a/b/c"; pg 4 "/ab"]))
              Hroot) as [D [_ [_ [_ [_ P]]]]].
    split; [exact D|exact P].
  - apply (proj2 (delete_removes_node_and_descendants (pg 0 "/")
                    [pg 0 "/"; pg 1 "/a"] (editorOf [pg 0 "/"; pg 1 "/a"]))
             eq_refl true).
    reflexivity.
Defined.

(* ================================================================= *)
(** ** Sorting the pages: [getMyPages] *)

Section SortFacts.

Context {A : Type} (cmp : A -> A -> Z).
Hypothesis cmp_total : forall a b, (cmp a b <= 0)%Z \/ (cmp b a <= 0)%Z.
Hypothesis cmp_trans :
  forall a b c, (cmp a b <= 0)%Z -> (cmp b c <= 0)%Z -> (cmp a c <= 0)%Z.

Lemma insert_perm (x : A) (l : list A) : Permutation (x :: l) (insert cmp x l).
Proof.
  induction l as [|y r IH]; simpl; [apply Permutation_refl|].
  destruct (cmp x y <=? 0)%Z; [apply Permutation_refl|].
  eapply perm_trans; [apply perm_swap|]. now apply perm_skip.
Qed.

Lemma sort_perm (l : list A) : Permutation l (sort cmp l).
Proof.
  induction l as [|x r IH]; simpl; [constructor|].
  eapply perm_trans; [|apply insert_perm]. now apply perm_skip.
Qed.

Lemma insert_sorted (x : A) (l : list A) :
  StronglySorted (fun a b => (cmp a b <= 0)%Z) l ->
  StronglySorted (fun a b => (cmp a b <= 0)%Z) (insert cmp x l).
Proof.
  induction 1 as [|y r Hs IH Hy]; simpl.
  - constructor; constructor.
  - destruct (cmp x y <=? 0)%Z eqn:C.
    + apply Z.leb_le in C. constructor.
      * now constructor.
      * constructor; [exact C|].
        eapply Forall_impl; [|exact Hy]. intros z Hz. now apply (cmp_trans x y z).
    + apply Z.leb_gt in C. constructor; [exact IH|].
      assert (Hyx : (cmp y x <= 0)%Z) by (destruct (cmp_total x y); [lia|assumption]).
      eapply Permutation_Forall; [apply insert_perm|].
      now constructor.
Qed.

Lemma sort_sorted (l : list A) :
  StronglySorted (fun a b => (cmp a b <= 0)%Z) (sort cmp l).
Proof.
  induction l as [|x r IH]; simpl; [constructor|now apply insert_sorted].
Qed.

End SortFacts.

Lemma codeUnitLe_total (a b : string) :
  codeUnitLe a b = true \/ codeUnitLe b a = true.
Proof.
  revert b. induction a as [|x a IH]; intros b; [now left|].
  destruct b as [|y b]; [now right|]. simpl.
  destruct (Nat.ltb_spec (nat_of_ascii x) (nat_of_ascii y));
    destruct (Nat.ltb_spec (nat_of_ascii y) (nat_of_ascii x));
    try lia; auto.
Qed.

Lemma codeUnitLe_trans (a b c : string) :
  codeUnitLe a b = true -> codeUnitLe b c = true -> codeUnitLe a c = true.
Proof.
  revert b c. induction a as [|x a IH]; intros b c; [reflexivity|].
  destruct b as [|y b]; [discriminate|].
  destruct c as [|z c]; [now simpl|]. simpl.
  destruct (Nat.ltb_spec (nat_of_ascii x) (nat_of_ascii y));
    destruct (Nat.ltb_spec (nat_of_ascii y) (nat_of_ascii x));
    destruct (Nat.ltb_spec (nat_of_ascii y) (nat_of_ascii z));
    destruct (Nat.ltb_spec (nat_of_ascii z) (nat_of_ascii y));
    destruct (Nat.ltb_spec (nat_of_ascii x) (nat_of_ascii z));
    destruct (Nat.ltb_spec (nat_of_ascii z) (nat_of_ascii x));
    try lia; try discriminate; try reflexivity.
  apply IH.
Qed.

Lemma codeUnitCompare_le (a b : string) :
  (codeUnitCompare a b <= 0)%Z <-> codeUnitLe a b = true.
Proof.
  unfold codeUnitCompare.
  destruct (codeUnitLe a b); [destruct (codeUnitLe b a)|]; split;
    intros; try reflexivity; try lia; discriminate.
Qed.

Lemma codeUnitCompare_consistent : consistent codeUnitCompare.
Proof.
  split.
  - intros a b. rewrite !codeUnitCompare_le. apply codeUnitLe_total.
  - intros a b c. rewrite !codeUnitCompare_le. apply codeUnitLe_trans.
Qed.

(** C8, as the code has it: the pages come out sorted by derived name in
    the order of the comparator the host gives to [localeCompare], whatever
    consistent order that is, and they are the parsed pages of the input;
    the order is that of the code units only when the comparator is. *)
Theorem getMyPages_sorted_by_comparator (localeCompare : string -> string -> Z)
  (pages : list TLPage) :
  consistent localeCompare ->
  StronglySorted (nameOrder localeCompare) (getMyPages localeCompare pages)
  /\ Permutation (map getMyPageSingle pages) (getMyPages localeCompare pages).
Proof.
  intros [Htotal Htrans]. unfold getMyPages. split.
  - apply (sort_sorted
             (fun a b : MyPage => localeCompare (My.name (my a)) (My.name (my b)))).
    + intros a b. apply Htotal.
    + intros a b c. apply Htrans.
  - apply sort_perm.
Qed.

Lemma getMyPages_sorted_by_comparator_witness :
  StronglySorted (nameOrder codeUnitCompare)
    (getMyPages codeUnitCompare [mkPage 1 "/b"; mkPage 2 "/a/c"; mkPage 3 "/B"])
  /\ Permutation
       (map getMyPageSingle [mkPage 1 "/b"; mkPage 2 "/a/c"; mkPage 3 "/B"])
       (getMyPages codeUnitCompare
          [mkPage 1 "/b"; mkPage 2 "/a/c"; mkPage 3 "/B"]).
Proof.
  exact (getMyPages_sorted_by_comparator codeUnitCompare
           [mkPage 1 "/b"; mkPage 2 "/a/c"; mkPage 3 "/B"]
           codeUnitCompare_consistent).
Defined.

(** C8, as stated, fails: the order is the one of [localeCompare], and
    under a collation that lets the letters decide before their case, [a]
    comes out before [B], while by code units every upper-case letter is
    before every lower-case one. *)
Lemma getMyPages_not_code_unit_order :
  map (fun p : MyPage => My.name (my p))
    (getMyPages collate [mkPage 1 "/a"; mkPage 2 "/B"]) = ["a"; "B"]
  /\ codeUnitLe "B" "a" = true
  /\ ~ StronglySorted (nameOrder codeUnitCompare)
         (getMyPages collate [mkPage 1 "/a"; mkPage 2 "/B"]).
Proof.
  split; [reflexivity|]. split; [reflexivity|].
  intros H. inversion H as [|x l _ Hall]; subst.
  inversion Hall as [|y m Hxy _]; subst.
  unfold nameOrder in Hxy. vm_compute in Hxy. now apply Hxy.
Qed.

(* ================================================================= *)
(** ** More on parsing: slashes, lengths and normal forms *)

Lemma length_append (a b : string) :
  String.length (a ++ b) = String.length a + String.length b.
Proof. induction a as [|c a IH]; simpl; [reflexivity|now rewrite IH]. Qed.

Lemma split_slashFree (s : string) :
  Forall (fun x => slashFree x = true) (split "/" s).
Proof.
  induction s as [|a t IH]; [repeat constructor|].
  destruct (a =? "/")%char eqn:Ha.
  - simpl. rewrite Ha. now constructor.
  - rewrite (split_cons_other _ _ _ Ha).
    destruct (split "/" t) as [|h r]; simpl.
    + constructor; [simpl; now rewrite Ha|constructor].
    + inversion IH; subst. constructor; [simpl; now rewrite Ha|assumption].
Qed.

Lemma split_of_slashFree (s : string) :
  slashFree s = true -> split "/" s = [s].
Proof.
  induction s as [|a t IH]; [reflexivity|].
  simpl. intros H. apply andb_true_iff in H. destruct H as [Ha Ht].
  apply negb_true_iff in Ha. rewrite Ha, (IH Ht). reflexivity.
Qed.

Lemma split_append_slash (r nm : string) :
  slashFree nm = true ->
  split "/" (r ++ "/" ++ nm) = (split "/" r ++ [nm])%list.
Proof.
  intros Hnm. induction r as [|a t IH].
  - simpl. now rewrite (split_of_slashFree _ Hnm).
  - destruct (a =? "/")%char eqn:Ha.
    + simpl. rewrite Ha. simpl in IH. now rewrite IH.
    + change (String a t ++ "/" ++ nm) with (String a (t ++ "/" ++ nm)).
      rewrite !(split_cons_other _ _ _ Ha), IH.
      destruct (split "/" t) as [|h rest] eqn:E.
      * exfalso. exact (split_not_nil _ _ E).
      * reflexivity.
Qed.

Lemma last_slashFree (l : list string) :
  Forall (fun x => slashFree x = true) l -> slashFree (last l "") = true.
Proof.
  induction 1 as [|x l Hx Hl IH]; [reflexivity|].
  destruct l; [exact Hx|exact IH].
Qed.

Lemma dropTrailingSlashes_idem (u : string) :
  dropTrailingSlashes (dropTrailingSlashes u) = dropTrailingSlashes u.
Proof.
  induction u as [|c t IH]; [reflexivity|].
  simpl. destruct (dropTrailingSlashes t) as [|b v] eqn:E.
  - destruct (c =? "/")%char eqn:Hc; [reflexivity|].
    simpl. now rewrite Hc.
  - change (dropTrailingSlashes (String c (String b v)))
      with (match dropTrailingSlashes (String b v) with
            | "" => if (c =? "/")%char then "" else String c ""
            | String x y => String c (String x y)
            end).
    rewrite IH. reflexivity.
Qed.

Lemma startsWith_no_slash (t : string) :
  (forall u, t <> String "/" u) -> startsWith t "/" = false.
Proof.
  intros H. destruct t as [|c u]; [reflexivity|].
  unfold startsWith. cbn [String.prefix].
  destruct (Ascii.ascii_dec "/" c) as [<-|N]; [now elim (H u)|reflexivity].
Qed.

(** Stripping is idempotent, also behind a slash. *)
Lemma stripSlashes_normal (s : string) :
  stripSlashes (String "/" (stripSlashes s)) = stripSlashes s.
Proof.
  unfold stripSlashes at 1. cbn [dropLeadingSlashes]. 
  change ("/" =? "/")%char with true. cbv iota.
  rewrite dropLeadingSlashes_id
    by (apply startsWith_no_slash; intros u; apply stripSlashes_head).
  unfold stripSlashes. apply dropTrailingSlashes_idem.
Qed.

Lemma length_dropLeadingSlashes (s : string) :
  String.length (dropLeadingSlashes s) <= String.length s.
Proof.
  induction s as [|c t IH]; [apply Nat.le_refl|].
  simpl. destruct (c =? "/")%char; simpl; lia.
Qed.

Lemma length_dropTrailingSlashes (s : string) :
  String.length (dropTrailingSlashes s) <= String.length s.
Proof.
  induction s as [|c t IH]; [apply Nat.le_refl|].
  simpl. destruct (dropTrailingSlashes t); [destruct (c =? "/")%char|];
    simpl in *; lia.
Qed.

Lemma length_stripSlashes (s : string) :
  String.length (stripSlashes s) <= String.length s.
Proof.
  unfold stripSlashes.
  pose proof (length_dropTrailingSlashes (dropLeadingSlashes s)).
  pose proof (length_dropLeadingSlashes s). lia.
Qed.

(** The parent path read off a path that starts with a slash is shorter
    than the path without that slash. *)
Lemma parentPath_shorter (s : string) :
  startsWith s "/" = true -> s <> "/" ->
  String.length (My.parentPath (fromSegments (split "/" (stripSlashes s))))
  < String.length (slice1 s).
Proof.
  intros Hs Hne. rewrite (startsWith_slash _ Hs) in *.
  cbn [slice1] in *. set (r := slice1 s) in *.
  assert (Hr : r <> "") by (intros E; apply Hne; now rewrite E).
  assert (Hlen : String.length (stripSlashes (String "/" r)) <= String.length r).
  { unfold stripSlashes. cbn [dropLeadingSlashes].
    change ("/" =? "/")%char with true. cbv iota.
    apply (length_stripSlashes r). }
  pose proof (join_split (stripSlashes (String "/" r))) as J.
  destruct (split "/" (stripSlashes (String "/" r))) as [|x [|y l]] eqn:E.
  - exfalso. exact (split_not_nil _ _ E).
  - cbn. destruct r; [now elim Hr|simpl; lia].
  - rewrite join_removelast in J.
    unfold fromSegments. cbv beta iota delta [My.parentPath].
    rewrite <- J in Hlen. rewrite !length_append in Hlen.
    change (String.length "/") with 1 in Hlen. lia.
Qed.

(** X1: the derived name of a page never holds a slash, whatever the path. *)
Theorem parsed_name_has_no_slash (p : TLPage) :
  slashFree (My.name (my (getMyPageSingle p))) = true.
Proof.
  rewrite getMyPageSingle_my. unfold fromSegments.
  cbv beta iota delta [My.name].
  apply last_slashFree, split_slashFree.
Qed.

(** X2: parsing the path re-derived from a parsed page gives the same name
    and parent path again: the re-derived path is a normal form of the
    path. *)
Theorem parse_of_rederived_path (p : TLPage) (i : TLPageId) :
  my (getMyPageSingle (mkPage i (rederive (my (getMyPageSingle p)))))
  = my (getMyPageSingle p).
Proof.
  rewrite (getMyPageSingle_my p).
  rewrite rederive_parts by (intros t; apply stripSlashes_head).
  rewrite getMyPageSingle_my. cbn [name append].
  now rewrite stripSlashes_normal.
Qed.

(* ================================================================= *)
(** ** More on descendants: [findAllChildPages] *)

Lemma findAllChildPages_In (parentPage p : MyPage) (allPages : list MyPage) :
  In p (findAllChildPages parentPage allPages)
  <-> In p allPages
      /\ id p <> id parentPage
      /\ (startsWith (slice1 (name p)) (currentPagePath parentPage ++ "/") = true
          \/ (currentPagePath parentPage = "" /\ name p <> "/")).
Proof.
  unfold findAllChildPages, currentPagePath. rewrite filter_In.
  destruct (Nat.eqb_spec (id p) (id parentPage)) as [E|N].
  - split; [intros [_ H]; discriminate H|tauto].
  - rewrite orb_true_iff, andb_true_iff, negb_true_iff.
    rewrite String.eqb_eq, String.eqb_neq. tauto.
Qed.

Lemma startsWith_nonempty (s p : string) :
  startsWith s (p ++ "/") = true ->
  exists rest, s = p ++ "/" ++ rest.
Proof.
  unfold startsWith. intros H. apply prefix_split in H.
  destruct H as [rest ->]. exists rest. now rewrite append_assoc.
Qed.

Lemma slice1_nonempty_name (n rest p : string) :
  slice1 n = p ++ "/" ++ rest -> n <> "/" /\ n = String (match n with
                                                        | String c _ => c
                                                        | "" => "/"%char
                                                        end) (slice1 n).
Proof.
  destruct n as [|c t]; simpl.
  - intros H. destruct p; discriminate H.
  - intros H. split; [|reflexivity].
    intros E. injection E as _ ->. destruct p; discriminate H.
Qed.

(** X3: descendants are transitively closed: a descendant of a descendant
    of a page is a descendant of that page, as soon as it is another page
    than that one. *)
Theorem findAllChildPages_transitive (a b c : MyPage) (allPages : list MyPage) :
  In b (findAllChildPages a allPages) ->
  In c (findAllChildPages b allPages) ->
  id c <> id a ->
  In c (findAllChildPages a allPages).
Proof.
  intros Hb Hc Hid.
  apply findAllChildPages_In in Hb. destruct Hb as [_ [_ Hb]].
  apply findAllChildPages_In in Hc. destruct Hc as [Hin [_ Hc]].
  apply findAllChildPages_In. split; [exact Hin|]. split; [exact Hid|].
  destruct (String.eqb_spec (currentPagePath a) "") as [Ea|Ea].
  - right. split; [exact Ea|].
    destruct Hc as [Hc|[_ Hc]]; [|exact Hc].
    apply startsWith_nonempty in Hc. destruct Hc as [rest Hc].
    now apply slice1_nonempty_name in Hc.
  - left. destruct Hb as [Hb|[Hb _]]; [|contradiction].
    apply startsWith_nonempty in Hb. destruct Hb as [r1 Hb].
    pose proof (slice1_nonempty_name _ _ _ Hb) as [Hbroot _].
    assert (Epb : currentPagePath b = currentPagePath a ++ "/" ++ r1).
    { unfold currentPagePath at 1. apply String.eqb_neq in Hbroot.
      now rewrite Hbroot. }
    destruct Hc as [Hc|[Hc _]].
    + apply startsWith_nonempty in Hc. destruct Hc as [r2 Hc].
      rewrite Epb in Hc. rewrite Hc.
      unfold startsWith.
      replace ((currentPagePath a ++ "/" ++ r1) ++ "/" ++ r2)
        with ((currentPagePath a ++ "/") ++ r1 ++ "/" ++ r2)
        by (now rewrite !append_assoc).
      apply prefix_append.
    + rewrite Epb in Hc. destruct (currentPagePath a); discriminate Hc.
Qed.

Lemma findAllChildPages_transitive_witness :
  In (pg 3 "/a/b/c")
     (findAllChildPages (pg 1 "/a")
        [pg 0 "/"; pg 1 "/a"; pg 2 "/a/b"; pg 3 "/a/b/c"]).
Proof.
  apply (findAllChildPages_transitive (pg 1 "/a") (pg 2 "/a/b") (pg 3 "/a/b/c")).
  - vm_compute. now left.
  - vm_compute. now left.
  - discriminate.
Defined.

(** X4: a page whose path is the slash is never among the descendants of a
    page: deleting or renaming another page never reaches the root. *)
Theorem root_is_never_a_descendant (parentPage p : MyPage)
  (allPages : list MyPage) :
  In p (findAllChildPages parentPage allPages) -> name p <> "/".
Proof.
  intros H. apply findAllChildPages_In in H.
  destruct H as [_ [_ [H|[_ H]]]]; [|exact H].
  apply startsWith_nonempty in H. destruct H as [rest H].
  now apply slice1_nonempty_name in H.
Qed.

Lemma root_is_never_a_descendant_witness :
  name (pg 2 "/a/b") <> "/".
Proof.
  apply (root_is_never_a_descendant (pg 0 "/") (pg 2 "/a/b")
           [pg 0 "/"; pg 1 "/a"; pg 2 "/a/b"]).
  vm_compute. right. now left.
Defined.

(* ================================================================= *)
(** ** The editor after a delete *)

Lemma NoDup_map_injective {A B : Type} (f : A -> B) (l : list A) (x y : A) :
  NoDup (map f l) -> In x l -> In y l -> f x = f y -> x = y.
Proof.
  induction l as [|z l IH]; intros Hnd Hx Hy Hf; [contradiction|].
  inversion Hnd as [|u m Hnin Hnd']; subst.
  destruct Hx as [<-|Hx], Hy as [<-|Hy].
  - reflexivity.
  - exfalso. apply Hnin. rewrite Hf. now apply in_map.
  - exfalso. apply Hnin. rewrite <- Hf. now apply in_map.
  - now apply IH.
Qed.

Lemma prefix_length (a b : string) :
  String.prefix a b = true -> String.length a <= String.length b.
Proof.
  intros H. apply prefix_split in H. destruct H as [rest ->].
  rewrite length_append. lia.
Qed.

(** The path [handleDelete] and the left arrow look for as the parent. *)
Lemma parentTarget_shorter (currentPage : MyPage) :
  parsed currentPage ->
  startsWith (name currentPage) "/" = true ->
  name currentPage <> "/" ->
  String.length
    (if My.parentPath (my currentPage) =? "" then "/"
     else "/" ++ My.parentPath (my currentPage))
  < String.length (name currentPage).
Proof.
  intros Hp Hs Hne.
  pose proof (parentPath_shorter _ Hs Hne) as L.
  rewrite <- getMyPageSingle_my in L. unfold parsed in Hp. rewrite <- Hp in L.
  assert (Hlen : String.length (name currentPage)
                 = S (String.length (slice1 (name currentPage)))).
  { rewrite (startsWith_slash _ Hs) at 1. reflexivity. }
  rewrite Hlen.
  destruct (String.eqb_spec (My.parentPath (my currentPage)) "") as [E|N].
  - rewrite E in L. cbn [String.length] in *. lia.
  - cbn [append String.length]. lia.
Qed.

(** The pages a confirmed delete leaves, by paths. *)
Lemma handleDelete_remaining_pages (currentPage : MyPage)
  (allPages : list MyPage) (ed : Editor) :
  name currentPage <> "/" ->
  startsWith (name currentPage) "/" = true ->
  (forall p : MyPage, In p allPages -> startsWith (name p) "/" = true) ->
  NoDup (map (fun p : MyPage => id p) allPages) ->
  pages ed = map page allPages ->
  pages (editor (handleDelete true currentPage allPages ed))
  = filter (fun q : TLPage =>
              negb (Nat.eqb (id q) (id currentPage))
              && negb (isDescendant currentPage q))
      (pages ed).
Proof.
  intros Hroot Hs Hall Hnd Hpages.
  destruct (handleDelete_confirmed currentPage allPages ed Hroot)
    as [nav [_ [_ P]]].
  rewrite P, Hpages. apply filter_ext_in. intros q Hq.
  apply in_map_iff in Hq. destruct Hq as [p0 [<- Hp0]].
  cbn [existsb]. rewrite negb_orb.
  destruct (Nat.eqb_spec (id p0) (id currentPage)) as [E|N]; [reflexivity|].
  cbn [negb andb]. f_equal.
  destruct (existsb (fun p : MyPage => Nat.eqb (id p0) (id p))
              (findAllChildPages currentPage allPages)) eqn:X.
  - apply existsb_exists in X. destruct X as [c [Hc Hid]].
    apply Nat.eqb_eq in Hid.
    rewrite (findAllChildPages_descendants _ _ Hroot Hs Hall) in Hc.
    apply filter_In in Hc. destruct Hc as [Hcin Hcd].
    assert (c = p0)
      by (apply (NoDup_map_injective (fun p : MyPage => id p) allPages);
          auto).
    subst c. apply andb_true_iff in Hcd. destruct Hcd as [_ Hd].
    now rewrite Hd.
  - destruct (isDescendant currentPage p0) eqn:D; [|reflexivity].
    assert (Hin : In p0 (findAllChildPages currentPage allPages)).
    { rewrite (findAllChildPages_descendants _ _ Hroot Hs Hall).
      apply filter_In. split; [exact Hp0|].
      apply Nat.eqb_neq in N. now rewrite N, D. }
    assert (Hex : existsb (fun p : MyPage => Nat.eqb (id p0) (id p))
                    (findAllChildPages currentPage allPages) = true).
    { apply existsb_exists. exists p0. split; [exact Hin|apply Nat.eqb_refl]. }
    congruence.
Qed.

(** X5: when the collection is the pages of the editor, with distinct
    identifiers and paths that start with a slash, a confirmed delete of a
    page other than the root leaves exactly the pages that are neither the
    page nor one of its descendants: no descendant is orphaned and no other
    page is lost. *)
Theorem delete_leaves_exactly_the_rest (currentPage : MyPage)
  (allPages : list MyPage) (ed : Editor) :
  name currentPage <> "/" ->
  startsWith (name currentPage) "/" = true ->
  (forall p : MyPage, In p allPages -> startsWith (name p) "/" = true) ->
  NoDup (map (fun p : MyPage => id p) allPages) ->
  pages ed = map page allPages ->
  pages (editor (handleDelete true currentPage allPages ed))
  = filter (fun q : TLPage =>
              negb (Nat.eqb (id q) (id currentPage))
              && negb (isDescendant currentPage q))
      (pages ed).
Proof. exact (handleDelete_remaining_pages currentPage allPages ed). Qed.

Lemma delete_leaves_exactly_the_rest_witness :
  pages (editor (handleDelete true (pg 1 "/a")
                   [pg 0 "/"; pg 1 "/a"; pg 2 "/a/b"; pg 3 "/ab"]
                   (editorOf [pg 0 "/"; pg 1 "/a"; pg 2 "/a/b"; pg 3 "/ab"])))
  = [mkPage 0 "/"; mkPage 3 "/ab"].
Proof.
  apply (delete_leaves_exactly_the_rest (pg 1 "/a")
           [pg 0 "/"; pg 1 "/a"; pg 2 "/a/b"; pg 3 "/ab"]
           (editorOf [pg 0 "/"; pg 1 "/a"; pg 2 "/a/b"; pg 3 "/ab"])).
  - discriminate.
  - reflexivity.
  - intros p [<-|[<-|[<-|[<-|[]]]]]; reflexivity.
  - vm_compute. repeat constructor; simpl; intuition discriminate.
  - reflexivity.
Defined.

Lemma handleDelete_navigates (currentPage target : MyPage)
  (allPages : list MyPage) (ed : Editor) :
  name currentPage <> "/" ->
  find (fun p : MyPage =>
          name p =? (if My.parentPath (my currentPage) =? "" then "/"
                     else "/" ++ My.parentPath (my currentPage)))
       allPages = Some target ->
  currentPageId (editor (handleDelete true currentPage allPages ed))
  = id target.
Proof.
  intros Hroot F. apply String.eqb_neq in Hroot.
  unfold handleDelete. rewrite editor_bind.
  unfold confirm. cbn [value editor]. rewrite Hroot, F.
  rewrite editor_bind. reflexivity.
Qed.

(** X6: under the same conditions, when the parent of the deleted page is
    in the collection, it is not deleted with the page, and the editor ends
    on it: the delete navigates to a page that still exists. *)
Theorem delete_navigates_to_surviving_parent (currentPage target : MyPage)
  (allPages : list MyPage) (ed : Editor) :
  name currentPage <> "/" ->
  startsWith (name currentPage) "/" = true ->
  (forall p : MyPage, In p allPages -> startsWith (name p) "/" = true) ->
  NoDup (map (fun p : MyPage => id p) allPages) ->
  pages ed = map page allPages ->
  In currentPage allPages ->
  parsed currentPage ->
  find (fun p : MyPage =>
          name p =? (if My.parentPath (my currentPage) =? "" then "/"
                     else "/" ++ My.parentPath (my currentPage)))
       allPages = Some target ->
  In (page target) (pages (editor (handleDelete true currentPage allPages ed)))
  /\ currentPageId (editor (handleDelete true currentPage allPages ed))
     = id target.
Proof.
  intros Hroot Hs Hall Hnd Hpages Hcur Hp F.
  split; [|now apply handleDelete_navigates].
  rewrite (handleDelete_remaining_pages _ _ _ Hroot Hs Hall Hnd Hpages).
  pose proof (find_some_name _ _ _ F) as [Hin Hname].
  pose proof (parentTarget_shorter _ Hp Hs Hroot) as L.
  rewrite <- Hname in L.
  apply filter_In. split; [rewrite Hpages; now apply in_map|].
  apply andb_true_iff. split; apply negb_true_iff.
  - apply Nat.eqb_neq. intros E.
    assert (target = currentPage)
      by (apply (NoDup_map_injective (fun p : MyPage => id p) allPages);
          auto).
    subst target. lia.
  - unfold isDescendant.
    destruct (String.prefix (name currentPage ++ "/") (name target)) eqn:D;
      [|reflexivity].
    apply prefix_length in D. rewrite length_append in D. lia.
Qed.

Lemma delete_navigates_to_surviving_parent_witness :
  In (mkPage 1 "/a")
     (pages (editor (handleDelete true (pg 2 "/a/b")
                       [pg 0 "/"; pg 1 "/a"; pg 2 "/a/b"; pg 3 "/a/b/c"]
                       (editorOf
                          [pg 0 "/"; pg 1 "/a"; pg 2 "/a/b"; pg 3 "/a/b/c"]))))
  /\ currentPageId
       (editor (handleDelete true (pg 2 "/a/b")
                  [pg 0 "/"; pg 1 "/a"; pg 2 "/a/b"; pg 3 "/a/b/c"]
                  (editorOf [pg 0 "/"; pg 1 "/a"; pg 2 "/a/b"; pg 3 "/a/b/c"])))
     = 1.
Proof.
  apply (delete_navigates_to_surviving_parent (pg 2 "/a/b") (pg 1 "/a")
           [pg 0 "/"; pg 1 "/a"; pg 2 "/a/b"; pg 3 "/a/b/c"]
           (editorOf [pg 0 "/"; pg 1 "/a"; pg 2 "/a/b"; pg 3 "/a/b/c"])).
  - discriminate.
  - reflexivity.
  - intros p [<-|[<-|[<-|[<-|[]]]]]; reflexivity.
  - vm_compute. repeat constructor; simpl; intuition discriminate.
  - reflexivity.
  - right; right; now left.
  - reflexivity.
  - reflexivity.
Defined.

(* ================================================================= *)
(** ** The editor after a rename *)

Lemma createMissingParents_editor (allPages : list MyPage) :
  forall (parts : list string) (currentPath : string) (ed : Editor),
  exists created : list TLPage,
    pages (editor (createMissingParents allPages currentPath parts ed))
    = (pages ed ++ created)%list
    /\ map (fun q : TLPage => id q) created
       = seq (nextId ed)
           (List.length (filter (missingIn allPages)
                           (loopPaths currentPath parts)))
    /\ map (fun q : TLPage => name q) created
       = filter (missingIn allPages) (loopPaths currentPath parts).
Proof.
  induction parts as [|part rest IH]; intros currentPath ed.
  - exists []. cbn. now rewrite app_nil_r.
  - cbn [createMissingParents loopPaths filter]. rewrite editor_bind.
    destruct (find (fun p : MyPage => name p =? currentPath ++ "/" ++ part)
                allPages) as [q|] eqn:F.
    + assert (Hm : missingIn allPages (currentPath ++ "/" ++ part) = false).
      { destruct (missingIn allPages (currentPath ++ "/" ++ part)) eqn:Q;
          [|reflexivity].
        apply find_none_missingIn in Q. congruence. }
      rewrite Hm. cbn [ret editor value]. apply IH.
    + apply find_none_missingIn in F. rewrite F.
      destruct (IH (currentPath ++ "/" ++ part)
                  (editor (createPage (currentPath ++ "/" ++ part) ed)))
        as [created [P [I N]]].
      exists (mkPage (nextId ed) (currentPath ++ "/" ++ part) :: created).
      cbn [createPage editor value pages nextId] in *.
      rewrite P, <- app_assoc. cbn [app map List.length seq id name].
      now rewrite I, N.
Qed.

Lemma forEach_renamePage_ids (h : MyPage -> string) (l : list MyPage) :
  forall ed : Editor,
    map (fun q : TLPage => id q)
      (pages (editor (forEach l (fun p : MyPage => renamePage (id p) (h p)) ed)))
    = map (fun q : TLPage => id q) (pages ed).
Proof.
  induction l as [|x l IH]; intros ed; [reflexivity|].
  cbn [forEach]. rewrite editor_bind, IH.
  unfold renamePage. cbn [editor pages value]. rewrite map_map.
  apply map_ext. intros q. now destruct (Nat.eqb (id q) (id x)).
Qed.

Lemma forEach_renamePage_untouched (h : MyPage -> string) (l : list MyPage)
  (q : TLPage) :
  (forall p : MyPage, In p l -> id p <> id q) ->
  forall ed : Editor,
    In q (pages ed) ->
    In q (pages (editor (forEach l (fun p : MyPage => renamePage (id p) (h p)) ed))).
Proof.
  induction l as [|x l IH]; intros Hl ed Hq; [exact Hq|].
  cbn [forEach]. rewrite editor_bind. apply IH.
  - intros p Hp. apply Hl. now right.
  - unfold renamePage. cbn [editor pages value].
    apply in_map_iff. exists q. split; [|exact Hq].
    assert (N : id x <> id q) by (apply Hl; now left).
    apply not_eq_sym, Nat.eqb_neq in N. now rewrite N.
Qed.

Lemma renamePage_renames (i : TLPageId) (newName : string) (q : TLPage)
  (ed : Editor) :
  In q (pages ed) -> id q = i ->
  In (mkPage i newName) (pages (editor (renamePage i newName ed))).
Proof.
  intros Hq Hid. unfold renamePage. cbn [editor pages].
  apply in_map_iff. exists q. split; [|exact Hq].
  rewrite Hid, Nat.eqb_refl. reflexivity.
Qed.

Lemma handleRename_success_pages (newPath : string) (currentPage : MyPage)
  (allPages : list MyPage) (ed : Editor) :
  name currentPage <> "/" ->
  trim newPath <> "" ->
  trim newPath <> name currentPage ->
  find (fun p : MyPage => name p =? normalizedTarget newPath) allPages = None ->
  pages (editor (handleRename (Some newPath) currentPage allPages ed))
  = pages
      (editor
         (forEach (currentPage :: findAllChildPages currentPage allPages)
            (fun p : MyPage =>
               renamePage (id p)
                 (newPagePath currentPage (normalizedTarget newPath) p))
            (editor
               (createMissingParents allPages ""
                  (removelast (segments (normalizedTarget newPath))) ed)))).
Proof.
  intros Hroot H1 H2 Hfind. unfold handleRename.
  apply String.eqb_neq in Hroot. rewrite Hroot.
  rewrite editor_bind. unfold prompt. cbn [value editor].
  rewrite (handleRename_guard _ _ H1 H2).
  unfold normalizedTarget in *. cbv zeta in *. rewrite Hfind.
  set (target := if startsWith (trim newPath) "/" then trim newPath
                 else "/" ++ trim newPath) in *.
  rewrite !editor_bind. unfold getPages at 1. cbn [value editor].
  match goal with
  | |- pages (editor (match ?f with _ => _ end ?e)) = _ =>
      destruct f; reflexivity
  end.
Qed.

Lemma renameAll_id (h : MyPage -> string) (l : list MyPage) :
  forall q : TLPage, id (renameAll h l q) = id q.
Proof.
  induction l as [|x l IH]; intros q; [reflexivity|].
  cbn [renameAll]. rewrite IH. now destruct (Nat.eqb (id q) (id x)).
Qed.

Lemma renameAll_untouched (h : MyPage -> string) (l : list MyPage) :
  forall q : TLPage,
    (forall p : MyPage, In p l -> id p <> id q) -> renameAll h l q = q.
Proof.
  induction l as [|x l IH]; intros q Hl; [reflexivity|].
  cbn [renameAll].
  assert (N : id q <> id x) by (apply not_eq_sym, Hl; now left).
  apply Nat.eqb_neq in N. rewrite N. apply IH.
  intros p Hp. apply Hl. now right.
Qed.

Lemma forEach_renamePage_pages (h : MyPage -> string) (l : list MyPage) :
  forall ed : Editor,
    pages (editor (forEach l (fun p : MyPage => renamePage (id p) (h p)) ed))
    = map (renameAll h l) (pages ed).
Proof.
  induction l as [|x l IH]; intros ed.
  - cbn. now rewrite map_id.
  - cbn [forEach]. rewrite editor_bind, IH.
    unfold renamePage. cbn [editor pages value]. rewrite map_map.
    reflexivity.
Qed.

(** X7: in an editor whose pages have distinct identifiers, all below its
    next identifier, as those of the collection are, a rename that goes
    through keeps every page of the editor under its identifier, in place,
    and appends one page for each missing ancestor of the target, with that
    ancestor as its path and an identifier that no page had; the
    identifiers are distinct afterwards as well: no page is removed or
    duplicated. *)
Theorem rename_keeps_identities (newPath : string) (currentPage : MyPage)
  (allPages : list MyPage) (ed : Editor) :
  name currentPage <> "/" ->
  trim newPath <> "" ->
  trim newPath <> name currentPage ->
  find (fun p : MyPage => name p =? normalizedTarget newPath) allPages = None ->
  (forall q : TLPage, In q (pages ed) -> id q < nextId ed) ->
  (forall p : MyPage, In p allPages -> id p < nextId ed) ->
  id currentPage < nextId ed ->
  NoDup (map (fun q : TLPage => id q) (pages ed)) ->
  exists kept created : list TLPage,
    pages (editor (handleRename (Some newPath) currentPage allPages ed))
    = (kept ++ created)%list
    /\ map (fun q : TLPage => id q) kept
       = map (fun q : TLPage => id q) (pages ed)
    /\ map (fun q : TLPage => name q) created
       = filter (missingIn allPages) (ancestorPaths (normalizedTarget newPath))
    /\ map (fun q : TLPage => id q) created
       = seq (nextId ed) (List.length created)
    /\ (forall q : TLPage,
          In q created ->
          ~ In (id q) (map (fun q : TLPage => id q) (pages ed)))
    /\ NoDup (map (fun q : TLPage => id q)
                (pages (editor (handleRename (Some newPath) currentPage
                                  allPages ed)))).
Proof.
  intros Hroot H1 H2 Hfind Hed Hall Hcur Hnd.
  rewrite (handleRename_success_pages _ _ _ _ Hroot H1 H2 Hfind).
  rewrite forEach_renamePage_pages.
  destruct (createMissingParents_editor allPages
              (removelast (segments (normalizedTarget newPath))) "" ed)
    as [created [P [I N]]].
  rewrite loopPaths_ancestorPaths in I, N.
  assert (Hlen : List.length created
                 = List.length
                     (filter (missingIn allPages)
                        (ancestorPaths (normalizedTarget newPath))))
    by (rewrite <- N; now rewrite length_map).
  rewrite <- Hlen in I.
  set (h := newPagePath currentPage (normalizedTarget newPath)) in *.
  set (l := currentPage :: findAllChildPages currentPage allPages) in *.
  assert (Hl : forall p : MyPage, In p l -> id p < nextId ed).
  { intros p [<-|Hp]; [exact Hcur|].
    apply Hall. unfold findAllChildPages in Hp. apply filter_In in Hp. tauto. }
  assert (Hfresh : forall q : TLPage, In q created -> nextId ed <= id q).
  { intros q Hq. apply (in_map (fun q : TLPage => id q)) in Hq.
    rewrite I in Hq. apply in_seq in Hq. lia. }
  assert (Hcreated : map (renameAll h l) created = created).
  { rewrite <- (map_id created) at 2. apply map_ext_in. intros q Hq.
    apply renameAll_untouched. intros p Hp E.
    specialize (Hl p Hp). specialize (Hfresh q Hq). lia. }
  exists (map (renameAll h l) (pages ed)), created.
  assert (Hkept : map (fun q : TLPage => id q) (map (renameAll h l) (pages ed))
                  = map (fun q : TLPage => id q) (pages ed)).
  { rewrite map_map. apply map_ext. intros q. apply renameAll_id. }
  assert (Hnew : forall q : TLPage,
             In q created ->
             ~ In (id q) (map (fun q : TLPage => id q) (pages ed))).
  { intros q Hq Hin. apply in_map_iff in Hin. destruct Hin as [q' [E Hq']].
    specialize (Hed q' Hq'). specialize (Hfresh q Hq). lia. }
  split; [now rewrite P, map_app, Hcreated|].
  split; [exact Hkept|]. split; [exact N|]. split; [exact I|].
  split; [exact Hnew|].
  rewrite P, map_app, Hcreated, map_app, Hkept, I.
  apply NoDup_app; [exact Hnd|apply seq_NoDup|].
  intros i Hi Hs. apply in_seq in Hs. apply in_map_iff in Hi.
  destruct Hi as [q [<- Hq]]. specialize (Hed q Hq). lia.
Qed.

Lemma rename_keeps_identities_witness :
  exists kept created : list TLPage,
    pages (editor (handleRename (Some "/x/y") (pg 1 "/a")
                     [pg 0 "/"; pg 1 "/a"; pg 2 "/a/c"]
                     (editorOf [pg 0 "/"; pg 1 "/a"; pg 2 "/a/c"])))
    = (kept ++ created)%list
    /\ map (fun q : TLPage => id q) kept = [0; 1; 2]
    /\ map (fun q : TLPage => name q) created = ["/x"]
    /\ map (fun q : TLPage => id q) created = seq 100 (List.length created)
    /\ (forall q : TLPage, In q created -> ~ In (id q) [0; 1; 2])
    /\ NoDup (map (fun q : TLPage => id q)
                (pages (editor (handleRename (Some "/x/y") (pg 1 "/a")
                                  [pg 0 "/"; pg 1 "/a"; pg 2 "/a/c"]
                                  (editorOf
                                     [pg 0 "/"; pg 1 "/a"; pg 2 "/a/c"]))))).
Proof.
  apply (rename_keeps_identities "/x/y" (pg 1 "/a")
           [pg 0 "/"; pg 1 "/a"; pg 2 "/a/c"]
           (editorOf [pg 0 "/"; pg 1 "/a"; pg 2 "/a/c"])).
  - discriminate.
  - discriminate.
  - discriminate.
  - reflexivity.
  - intros q [<-|[<-|[<-|[]]]]; vm_compute; lia.
  - intros p [<-|[<-|[<-|[]]]]; vm_compute; lia.
  - vm_compute. lia.
  - vm_compute. repeat constructor; simpl; intuition discriminate.
Defined.

(** X8: a rename that goes through leaves every page of the editor that is
    neither the renamed page nor one of its descendants as it is, path
    included, and the renamed page ends with the target as its path, under
    its identifier. *)
Theorem rename_touches_only_the_subtree (newPath : string)
  (currentPage : MyPage) (allPages : list MyPage) (ed : Editor) :
  name currentPage <> "/" ->
  trim newPath <> "" ->
  trim newPath <> name currentPage ->
  find (fun p : MyPage => name p =? normalizedTarget newPath) allPages = None ->
  (forall q : TLPage,
     In q (pages ed) ->
     id q <> id currentPage ->
     (forall c : MyPage,
        In c (findAllChildPages currentPage allPages) -> id c <> id q) ->
     In q (pages (editor (handleRename (Some newPath) currentPage allPages ed))))
  /\ (forall q : TLPage,
        In q (pages ed) ->
        id q = id currentPage ->
        In (mkPage (id currentPage) (normalizedTarget newPath))
           (pages (editor (handleRename (Some newPath) currentPage allPages ed)))).
Proof.
  intros Hroot H1 H2 Hfind.
  rewrite (handleRename_success_pages _ _ _ _ Hroot H1 H2 Hfind).
  destruct (createMissingParents_editor allPages
              (removelast (segments (normalizedTarget newPath))) "" ed)
    as [created [P _]].
  split.
  - intros q Hq Hid Hc. apply forEach_renamePage_untouched.
    + intros p [<-|Hp]; [now apply not_eq_sym|now apply Hc].
    + rewrite P. apply in_or_app. now left.
  - intros q Hq Hid. cbn [forEach]. rewrite editor_bind.
    apply forEach_renamePage_untouched.
    + intros c Hc E. cbn [id] in E.
      apply (findAllChildPages_not_self currentPage allPages).
      apply in_map_iff. now exists c.
    + rewrite (proj1 (newPagePath_prefix currentPage currentPage newPath "")).
      apply (renamePage_renames _ _ q); [|exact Hid].
      rewrite P. apply in_or_app. now left.
Qed.

Lemma rename_touches_only_the_subtree_witness :
  In (mkPage 2 "/proj2")
     (pages (editor (handleRename (Some "/work") (pg 1 "/proj")
                       [pg 0 "/"; pg 1 "/proj"; pg 2 "/proj2"; pg 3 "/proj/sub"]
                       (editorOf
                          [pg 0 "/"; pg 1 "/proj"; pg 2 "/proj2";
                           pg 3 "/proj/sub"]))))
  /\ In (mkPage 1 "/work")
       (pages (editor (handleRename (Some "/work") (pg 1 "/proj")
                         [pg 0 "/"; pg 1 "/proj"; pg 2 "/proj2"; pg 3 "/proj/sub"]
                         (editorOf
                            [pg 0 "/"; pg 1 "/proj"; pg 2 "/proj2";
                             pg 3 "/proj/sub"])))).
Proof.
  assert (Hroot : name (pg 1 "/proj") <> "/") by discriminate.
  assert (H1 : trim "/work" <> "") by discriminate.
  assert (H2 : trim "/work" <> name (pg 1 "/proj")) by discriminate.
  destruct (rename_touches_only_the_subtree "/work" (pg 1 "/proj")
              [pg 0 "/"; pg 1 "/proj"; pg 2 "/proj2"; pg 3 "/proj/sub"]
              (editorOf [pg 0 "/"; pg 1 "/proj"; pg 2 "/proj2"; pg 3 "/proj/sub"])
              Hroot H1 H2 eq_refl) as [A B].
  split.
  - apply (A (mkPage 2 "/proj2")).
    + right; right; now left.
    + discriminate.
    + intros c [<-|[]]. discriminate.
  - apply (B (mkPage 1 "/proj")); [right; now left|reflexivity].
Defined.

(* ================================================================= *)
(** ** The children the panel lists: [filteredPages] and [childCount] *)

Lemma filteredPages_In (currentMyPage p : MyPage) (myPages : list MyPage) :
  In p (filteredPages currentMyPage myPages)
  <-> In p myPages
      /\ My.parentPath (my p) = currentPagePath currentMyPage
      /\ id p <> id currentMyPage.
Proof.
  unfold filteredPages. rewrite filter_In, andb_true_iff, negb_true_iff.
  rewrite String.eqb_eq, Nat.eqb_neq. tauto.
Qed.

(** A parsed page with a parent path: its stripped path is the parent
    path, a slash and the name. *)
Lemma parsed_with_parent (p : MyPage) :
  parsed p -> My.parentPath (my p) <> "" ->
  stripSlashes (name p) = My.parentPath (my p) ++ "/" ++ My.name (my p).
Proof.
  intros Hp Hpp. unfold parsed in Hp.
  assert (E : my p = fromSegments (split "/" (stripSlashes (name p))))
    by (rewrite Hp at 1; apply getMyPageSingle_my).
  rewrite E in *. clear E.
  pose proof (join_split (stripSlashes (name p))) as J.
  destruct (split "/" (stripSlashes (name p))) as [|x [|y l]] eqn:S.
  - exfalso. exact (split_not_nil _ _ S).
  - now elim Hpp.
  - rewrite join_removelast in J. now symmetry.
Qed.

(** X9: a page the panel lists as a child of the current page is one of
    the descendants [findAllChildPages] finds for it, as soon as its own
    path is valid and not the root's: what the panel shows under a page
    goes with it when the page is deleted or renamed. *)
Theorem filteredPages_are_descendants (currentMyPage p : MyPage)
  (myPages : list MyPage) :
  In p (filteredPages currentMyPage myPages) ->
  parsed p ->
  validPath (name p) = true ->
  name p <> "/" ->
  In p (findAllChildPages currentMyPage myPages).
Proof.
  intros Hin Hp Hv Hne.
  apply filteredPages_In in Hin. destruct Hin as [Hin [Hpp Hid]].
  apply findAllChildPages_In. split; [exact Hin|]. split; [exact Hid|].
  destruct (String.eqb_spec (currentPagePath currentMyPage) "") as [E|N].
  - right. now split.
  - left. rewrite <- Hpp in *.
    pose proof (parsed_with_parent p Hp N) as S.
    pose proof (stripSlashes_valid _ Hv) as V.
    rewrite <- V. cbn [append slice1]. rewrite S.
    unfold startsWith.
    replace (My.parentPath (my p) ++ "/" ++ My.name (my p))
      with ((My.parentPath (my p) ++ "/") ++ My.name (my p))
      by (now rewrite append_assoc).
    apply prefix_append.
Qed.

Lemma filteredPages_are_descendants_witness :
  In (pg 2 "/a/b")
     (findAllChildPages (pg 1 "/a")
        [pg 0 "/"; pg 1 "/a"; pg 2 "/a/b"; pg 3 "/a/b/c"]).
Proof.
  apply (filteredPages_are_descendants (pg 1 "/a") (pg 2 "/a/b")).
  - vm_compute. now left.
  - reflexivity.
  - reflexivity.
  - discriminate.
Defined.

(** X10: for a page of the collection other than the root, with distinct
    identifiers, the child count shown next to it is the number of pages
    the panel lists once that page is the current one. *)
Theorem childCount_is_number_of_children (p : MyPage) (myPages : list MyPage) :
  In p myPages ->
  NoDup (map (fun q : MyPage => id q) myPages) ->
  parsed p ->
  startsWith (name p) "/" = true ->
  name p <> "/" ->
  childCount p myPages = List.length (filteredPages p myPages).
Proof.
  intros Hin Hnd Hp Hs Hne. unfold childCount, filteredPages. cbv zeta.
  f_equal. apply filter_ext_in. intros q Hq.
  unfold currentPagePath. apply String.eqb_neq in Hne. rewrite Hne.
  destruct (Nat.eqb_spec (id q) (id p)) as [E|N].
  - assert (q = p)
      by (apply (NoDup_map_injective (fun q : MyPage => id q) myPages); auto).
    subst q. cbn [negb]. rewrite andb_false_r.
    apply String.eqb_neq. intros Epp.
    apply String.eqb_neq in Hne.
    pose proof (parentPath_shorter _ Hs Hne) as L.
    rewrite <- getMyPageSingle_my in L. unfold parsed in Hp.
    rewrite <- Hp in L. rewrite Epp in L. lia.
  - cbn [negb]. now rewrite andb_true_r.
Qed.

Lemma childCount_is_number_of_children_witness :
  childCount (pg 1 "/a") [pg 0 "/"; pg 1 "/a"; pg 2 "/a/b"; pg 3 "/a/b/c"]
  = List.length
      (filteredPages (pg 1 "/a")
         [pg 0 "/"; pg 1 "/a"; pg 2 "/a/b"; pg 3 "/a/b/c"]).
Proof.
  apply childCount_is_number_of_children.
  - right. now left.
  - vm_compute. repeat constructor; simpl; intuition discriminate.
  - reflexivity.
  - reflexivity.
  - discriminate.
Defined.

Lemma split_singleton_slashFree (s x : string) :
  split "/" s = [x] -> slashFree s = true.
Proof.
  intros E. pose proof (join_split s) as J. rewrite E in J. simpl in J.
  pose proof (split_slashFree s) as F. rewrite E in F.
  inversion F; subst. assumption.
Qed.

(** X11: at the root, the panel lists exactly the other pages whose path,
    stripped of its leading and trailing slashes, holds no slash: the pages
    of one segment, and those of none. *)
Theorem filteredPages_of_root (root p : MyPage) (myPages : list MyPage) :
  name root = "/" ->
  parsed p ->
  (In p (filteredPages root myPages)
   <-> In p myPages /\ id p <> id root
       /\ slashFree (stripSlashes (name p)) = true).
Proof.
  intros Hroot Hp. rewrite filteredPages_In.
  unfold currentPagePath. rewrite Hroot. cbn [String.eqb Ascii.eqb].
  change ("/" =? "/") with true. cbv iota.
  assert (E : My.parentPath (my p) = ""
              <-> slashFree (stripSlashes (name p)) = true).
  { split.
    - intros Epp. unfold parsed in Hp.
      assert (M : my p = fromSegments (split "/" (stripSlashes (name p))))
        by (rewrite Hp at 1; apply getMyPageSingle_my).
      rewrite M in Epp.
      pose proof (join_split (stripSlashes (name p))) as J.
      destruct (split "/" (stripSlashes (name p))) as [|x [|y l]] eqn:S.
      + exfalso. exact (split_not_nil _ _ S).
      + now apply (split_singleton_slashFree _ x).
      + rewrite join_removelast in J.
        unfold fromSegments in Epp. cbv beta iota delta [My.parentPath] in Epp.
        rewrite Epp in J. exfalso.
        exact (stripSlashes_head (name p) _ (eq_sym J)).
    - intros Hsf. unfold parsed in Hp. rewrite Hp.
      rewrite getMyPageSingle_my, (split_of_slashFree _ Hsf). reflexivity. }
  tauto.
Qed.

Lemma filteredPages_of_root_witness :
  In (pg 1 "/a") (filteredPages (pg 0 "/") [pg 0 "/"; pg 1 "/a"; pg 2 "/a/b"])
  <-> In (pg 1 "/a") [pg 0 "/"; pg 1 "/a"; pg 2 "/a/b"]
      /\ id (pg 1 "/a") <> id (pg 0 "/")
      /\ slashFree (stripSlashes (name (pg 1 "/a"))) = true.
Proof.
  apply (filteredPages_of_root (pg 0 "/") (pg 1 "/a")); reflexivity.
Defined.

(* ================================================================= *)
(** ** The arrow keys of the panel: [handleKeyDown] of nav.tsx *)

(** X12: in keyboard mode, with the selected index inside the list of
    children, the down and up arrows keep it inside the list, wrap around
    at its ends, touch neither the memory nor the editor, and undo each
    other. *)
Theorem arrow_up_down_cycle (currentMyPage : MyPage) (myPages : list MyPage)
  (st : NavState) :
  selectedIndex st < List.length (filteredPages currentMyPage myPages) ->
  let down := navKeyDown true "ArrowDown" currentMyPage myPages st in
  let up := navKeyDown true "ArrowUp" currentMyPage myPages st in
  selectedIndex (navState down)
  = (if Nat.eqb (S (selectedIndex st))
          (List.length (filteredPages currentMyPage myPages))
     then 0 else S (selectedIndex st))
  /\ selectedIndex (navState down)
     < List.length (filteredPages currentMyPage myPages)
  /\ selectedIndex (navState up)
     < List.length (filteredPages currentMyPage myPages)
  /\ navState (navKeyDown true "ArrowUp" currentMyPage myPages (navState down))
     = st
  /\ navState (navKeyDown true "ArrowDown" currentMyPage myPages (navState up))
     = st
  /\ (forall ed, run down ed = mkOutcome tt ed [])
  /\ (forall ed, run up ed = mkOutcome tt ed []).
Proof.
  intros Hlt. destruct st as [i mem]. cbn [selectedIndex] in Hlt.
  unfold navKeyDown. cbn [negb String.eqb Ascii.eqb Bool.eqb].
  cbv zeta. cbn [navState selectedIndex navigationMemory run].
  set (n := List.length (filteredPages currentMyPage myPages)) in *.
  assert (Hpos : Nat.ltb 0 n = true) by (apply Nat.ltb_lt; lia).
  rewrite Hpos. cbn [selectedIndex navigationMemory].
  destruct (Nat.ltb_spec i (n - 1)) as [A|A];
    destruct (Nat.ltb_spec 0 i) as [B|B];
    destruct (Nat.eqb_spec (S i) n) as [C|C]; try lia;
    cbn [selectedIndex navigationMemory];
    repeat split; try reflexivity; try lia;
    repeat match goal with
           | |- context [Nat.ltb ?a ?b] =>
               destruct (Nat.ltb_spec a b); try lia
           end;
    try (f_equal; lia).
Qed.

Lemma arrow_up_down_cycle_witness :
  selectedIndex
    (navState
       (navKeyDown true "ArrowDown" (pg 0 "/")
          [pg 0 "/"; pg 1 "/a"; pg 2 "/b"] (mkNavState 1 memoryEmpty)))
  = 0.
Proof.
  assert (H : selectedIndex (mkNavState 1 memoryEmpty)
              < List.length
                  (filteredPages (pg 0 "/") [pg 0 "/"; pg 1 "/a"; pg 2 "/b"]))
    by (vm_compute; lia).
  exact (proj1 (arrow_up_down_cycle (pg 0 "/")
                  [pg 0 "/"; pg 1 "/a"; pg 2 "/b"]
                  (mkNavState 1 memoryEmpty) H)).
Defined.

Lemma currentPagePath_name (currentMyPage : MyPage) :
  startsWith (name currentMyPage) "/" = true ->
  (if currentPagePath currentMyPage =? "" then "/"
   else "/" ++ currentPagePath currentMyPage)
  = name currentMyPage.
Proof.
  intros Hs. unfold currentPagePath.
  destruct (String.eqb_spec (name currentMyPage) "/") as [E|N].
  - now rewrite E.
  - pose proof (startsWith_slash _ Hs) as S.
    destruct (String.eqb_spec (slice1 (name currentMyPage)) "") as [E|_].
    + rewrite E in S. now elim N.
    + now symmetry.
Qed.

(** X13: the right arrow goes into the selected child and records the
    selection under the path of the current page; from that child, the left
    arrow goes back to a page with the path of the page one came from,
    whatever was selected in the child, and the reset of the selection then
    finds the row of that child again. *)
Theorem arrow_right_then_left_returns (currentMyPage child : MyPage)
  (myPages : list MyPage) (st : NavState) (ed : Editor) :
  nth_error (filteredPages currentMyPage myPages) (selectedIndex st)
  = Some child ->
  parsed child ->
  startsWith (name child) "/" = true ->
  name child <> "/" ->
  startsWith (name currentMyPage) "/" = true ->
  In currentMyPage myPages ->
  let right := navKeyDown true "ArrowRight" currentMyPage myPages st in
  run right ed
  = mkOutcome tt
      {| pages := pages ed; currentPageId := id child; nextId := nextId ed |}
      [SetCurrentPage (id child)]
  /\ forall (j : nat) (ed' : Editor),
       let left :=
         navKeyDown true "ArrowLeft" child myPages
           (mkNavState j (navigationMemory (navState right))) in
       (exists back : MyPage,
          In back myPages /\ name back = name currentMyPage
          /\ effects (run left ed') = [SetCurrentPage (id back)])
       /\ selectedIndex (resetSelection true currentMyPage myPages (navState left))
          = selectedIndex st.
Proof.
  intros Hnth Hp Hs Hne Hcs Hcur.
  pose proof (nth_error_In _ _ Hnth) as Hin.
  apply filteredPages_In in Hin. destruct Hin as [_ [Hpp _]].
  assert (Hlen : selectedIndex st
                 < List.length (filteredPages currentMyPage myPages))
    by (apply nth_error_Some; congruence).
  assert (Hpos : Nat.ltb 0 (List.length (filteredPages currentMyPage myPages))
                 = true) by (apply Nat.ltb_lt; lia).
  assert (Hright : navKeyDown true "ArrowRight" currentMyPage myPages st
                   = mkKeyOutcome true
                       (mkNavState (selectedIndex st)
                          (memorySet (navigationMemory st)
                             (currentPagePath currentMyPage) (selectedIndex st)))
                       (setCurrentPage child)).
  { unfold navKeyDown. cbn [negb String.eqb Ascii.eqb Bool.eqb]. cbv zeta.
    now rewrite Hpos, Hnth. }
  cbv zeta. rewrite Hright. cbn [run navState navigationMemory].
  split; [reflexivity|].
  intros j ed'.
  assert (Htarget : (if My.parentPath (my child) =? "" then "/"
                     else "/" ++ My.parentPath (my child))
                    = name currentMyPage)
    by (rewrite Hpp; now apply currentPagePath_name).
  destruct (find_name_exists myPages (name currentMyPage)) as [back F];
    [now exists currentMyPage|].
  unfold navKeyDown. cbn [negb String.eqb Ascii.eqb Bool.eqb]. cbv zeta.
  apply String.eqb_neq in Hne. rewrite Hne. cbn [negb].
  rewrite Htarget, F. cbn [run navState]. split.
  - exists back. pose proof (find_some_name _ _ _ F) as [Hb Hn].
    repeat split; assumption.
  - unfold resetSelection. cbv zeta.
    cbn [andb navigationMemory selectedIndex]. rewrite Hpos.
    unfold memoryGet, memorySet.
    assert (Hdiff : (currentPagePath currentMyPage =? currentPagePath child)
                    = false).
    { apply String.eqb_neq. intros E.
      apply String.eqb_neq in Hne.
      pose proof (parentPath_shorter _ Hs Hne) as L.
      rewrite <- getMyPageSingle_my in L. unfold parsed in Hp.
      rewrite <- Hp in L. rewrite Hpp, E in L.
      unfold currentPagePath in L. apply String.eqb_neq in Hne.
      rewrite Hne in L. lia. }
    rewrite Hdiff, String.eqb_refl.
    apply Nat.ltb_lt in Hlen. now rewrite Hlen.
Qed.

Lemma arrow_right_then_left_returns_witness :
  run (navKeyDown true "ArrowRight" (pg 1 "/a")
         [pg 0 "/"; pg 1 "/a"; pg 2 "/a/b"; pg 3 "/a/c"]
         (mkNavState 1 memoryEmpty))
    (editorOf [pg 0 "/"; pg 1 "/a"; pg 2 "/a/b"; pg 3 "/a/c"])
  = mkOutcome tt
      {| pages := [mkPage 0 "/"; mkPage 1 "/a"; mkPage 2 "/a/b"; mkPage 3 "/a/c"];
         currentPageId := 3;
         nextId := 100 |}
      [SetCurrentPage 3].
Proof.
  apply (arrow_right_then_left_returns (pg 1 "/a") (pg 3 "/a/c")
           [pg 0 "/"; pg 1 "/a"; pg 2 "/a/b"; pg 3 "/a/c"]
           (mkNavState 1 memoryEmpty)
           (editorOf [pg 0 "/"; pg 1 "/a"; pg 2 "/a/b"; pg 3 "/a/c"])).
  - reflexivity.
  - reflexivity.
  - reflexivity.
  - discriminate.
  - reflexivity.
  - right. now left.
Defined.

(* ================================================================= *)
(** ** A page added under the current page *)

Lemma endsWithSlash_append (a b : string) :
  b <> "" -> endsWithSlash (a ++ b) = endsWithSlash b.
Proof.
  intros Hb. induction a as [|c a IH]; [reflexivity|].
  cbn [append endsWithSlash]. destruct (a ++ b) eqn:E; [|exact IH].
  destruct a; [now elim Hb|discriminate E].
Qed.

Lemma endsWithSlash_slashFree (s : string) :
  slashFree s = true -> endsWithSlash s = false.
Proof.
  induction s as [|c t IH]; [reflexivity|].
  simpl. intros H. apply andb_true_iff in H. destruct H as [Hc Ht].
  apply negb_true_iff in Hc. destruct t; [exact Hc|now apply IH].
Qed.

Lemma stripSlashes_kept (s : string) :
  startsWith s "/" = false -> endsWithSlash s = false ->
  stripSlashes (String "/" s) = s.
Proof.
  intros H1 H2. unfold stripSlashes. cbn [dropLeadingSlashes].
  change ("/" =? "/")%char with true. cbv iota.
  now rewrite (dropLeadingSlashes_id _ H1), (dropTrailingSlashes_id _ H2).
Qed.

Lemma startsWith_append (a b : string) :
  a <> "" -> startsWith (a ++ b) "/" = startsWith a "/".
Proof.
  destruct a as [|c a]; [now intros H; elim H|]. intros _.
  unfold startsWith. cbn [append String.prefix].
  destruct (Ascii.ascii_dec "/" c); [|reflexivity].
  now destruct a, b.
Qed.

(** The candidate path of [handleAdd], parsed: under a current page with a
    valid path, a name without slashes is the derived name, and the parent
    path is the path of the current page. *)
Lemma candidatePath_parsed (currentPage : MyPage) (pageName : string)
  (i : TLPageId) :
  validPath (name currentPage) = true ->
  slashFree (trim pageName) = true ->
  trim pageName <> "" ->
  my (getMyPageSingle (mkPage i (candidatePath currentPage pageName)))
  = {| My.name := trim pageName;
       My.parentPath := currentPagePath currentPage |}.
Proof.
  intros Hv Hsf Hne. rewrite getMyPageSingle_my. cbn [name].
  unfold candidatePath, currentPagePath.
  set (nm := trim pageName) in *.
  assert (Hend : endsWithSlash nm = false) by now apply endsWithSlash_slashFree.
  assert (Hst : startsWith nm "/" = false).
  { destruct nm as [|c t]; [reflexivity|]. unfold startsWith.
    cbn [String.prefix]. simpl in Hsf.
    destruct (Ascii.ascii_dec "/" c) as [<-|N]; [discriminate Hsf|reflexivity]. }
  destruct (String.eqb_spec (name currentPage) "/") as [E|N].
  - cbn [append]. rewrite (stripSlashes_kept _ Hst Hend).
    now rewrite (split_of_slashFree _ Hsf).
  - destruct (name currentPage) as [|c r] eqn:En; [discriminate Hv|].
    unfold validPath in Hv. apply andb_true_iff in Hv. destruct Hv as [Hc Hv].
    apply Ascii.eqb_eq in Hc. subst c.
    assert (Hr : r <> "") by (intros ->; now elim N).
    apply orb_true_iff in Hv. destruct Hv as [Hv|Hv];
      [destruct r; [now elim Hr|discriminate Hv]|].
    apply andb_true_iff in Hv. destruct Hv as [Hv1 Hv2].
    apply negb_true_iff in Hv1, Hv2.
    cbn [append slice1].
    rewrite stripSlashes_kept.
    + rewrite (split_append_slash _ _ Hsf).
      unfold fromSegments. rewrite last_last, removelast_last, join_split.
      reflexivity.
    + now rewrite startsWith_append.
    + rewrite endsWithSlash_append by discriminate.
      destruct nm as [|c t]; [now elim Hne|exact Hend].
Qed.

(** X14: a page added under a current page with a valid path, under a name
    without slashes, is listed among the children of the current page once
    the pages of the editor are read again, however they are sorted, with
    the typed name, trimmed, as its derived name. *)
Theorem added_page_is_listed_as_child (localeCompare : string -> string -> Z)
  (pageName : string) (currentPage : MyPage) (allPages : list MyPage)
  (ed : Editor) :
  validPath (name currentPage) = true ->
  slashFree (trim pageName) = true ->
  trim pageName <> "" ->
  find (fun p : MyPage => name p =? candidatePath currentPage pageName) allPages
  = None ->
  nextId ed <> id currentPage ->
  exists newPage : MyPage,
    In newPage
       (filteredPages currentPage
          (getMyPages localeCompare
             (pages (editor (handleAdd (Some pageName) currentPage allPages ed)))))
    /\ name newPage = candidatePath currentPage pageName
    /\ My.name (my newPage) = trim pageName.
Proof.
  intros Hv Hsf Hne F Hid.
  destruct (handleAdd_success _ _ _ ed Hne F) as [i E]. rewrite E.
  cbn [editor pages].
  pose proof (candidatePath_parsed currentPage pageName (nextId ed) Hv Hsf Hne)
    as P.
  exists (getMyPageSingle (mkPage (nextId ed) (candidatePath currentPage pageName))).
  split; [|split; [reflexivity|now rewrite P]].
  apply filteredPages_In. split; [|split].
  - unfold getMyPages. eapply Permutation_in; [apply sort_perm|].
    apply in_map, in_or_app. right. now left.
  - now rewrite P.
  - exact Hid.
Qed.

Lemma added_page_is_listed_as_child_witness :
  exists newPage : MyPage,
    In newPage
       (filteredPages (pg 1 "/a")
          (getMyPages codeUnitCompare
             (pages (editor (handleAdd (Some " b ") (pg 1 "/a")
                               [pg 0 "/"; pg 1 "/a"]
                               (editorOf [pg 0 "/"; pg 1 "/a"])))))) 
    /\ name newPage = "/a/b"
    /\ My.name (my newPage) = "b".
Proof.
  apply (added_page_is_listed_as_child codeUnitCompare " b " (pg 1 "/a")
           [pg 0 "/"; pg 1 "/a"] (editorOf [pg 0 "/"; pg 1 "/a"])).
  - reflexivity.
  - reflexivity.
  - discriminate.
  - reflexivity.
  - discriminate.
Defined.

(* ================================================================= *)
(** ** The breadcrumb *)

Lemma pushSegments_fields :
  forall (segs : list string) (currentPath : string) (index total : nat),
    map path (pushSegments currentPath index total segs)
    = loopPaths currentPath segs
    /\ map label (pushSegments currentPath index total segs) = segs
    /\ map isLast (pushSegments currentPath index total segs)
       = map (fun k => Nat.eqb k (total - 1)) (seq index (List.length segs)).
Proof.
  induction segs as [|seg rest IH]; intros currentPath index total.
  - repeat split.
  - cbn [pushSegments loopPaths map List.length seq path label isLast].
    destruct (IH (currentPath ++ "/" ++ seg) (S index) total) as [P [L I]].
    rewrite P, L, I. repeat split.
Qed.

Lemma loopPaths_all_prefixes (segs : list string) (currentPath : string) :
  loopPaths currentPath segs
  = map (fun k => currentPath ++ "/" ++ join "/" (firstn k segs))
      (seq 1 (List.length segs)).
Proof.
  pose proof (loopPaths_prefixes (segs ++ [""]) currentPath) as H.
  rewrite removelast_last, length_app in H. cbn [List.length] in H.
  replace (List.length segs + 1 - 1) with (List.length segs) in H by lia.
  rewrite H. apply map_ext_in. intros k Hk. apply in_seq in Hk.
  rewrite firstn_app. replace (k - List.length segs) with 0 by lia.
  cbn [firstn]. now rewrite app_nil_r.
Qed.

Lemma breadcrumbItems_not_root (currentPage : MyPage) :
  name currentPage <> "/" ->
  breadcrumbItems currentPage
  = mkItem "root" "/" false
    :: pushSegments "" 0 (List.length (segments (name currentPage)))
         (segments (name currentPage)).
Proof.
  intros H. unfold breadcrumbItems. apply String.eqb_neq in H. now rewrite H.
Qed.

(** X15: off the root, the breadcrumb is the root followed by one item per
    segment of the path, labelled by the segment, whose path is the
    slash-joined segments up to it, the last of them, and only that one,
    being marked as last. *)
Theorem breadcrumb_follows_segments (currentPage : MyPage) :
  name currentPage <> "/" ->
  map label (breadcrumbItems currentPage)
  = "root" :: segments (name currentPage)
  /\ map path (breadcrumbItems currentPage)
     = "/" :: map (fun k => "/" ++ join "/" (firstn k (segments (name currentPage))))
                (seq 1 (List.length (segments (name currentPage))))
  /\ map isLast (breadcrumbItems currentPage)
     = false :: map (fun k => Nat.eqb (S k) (List.length (segments (name currentPage))))
                  (seq 0 (List.length (segments (name currentPage)))).
Proof.
  intros H. rewrite (breadcrumbItems_not_root _ H).
  destruct (pushSegments_fields (segments (name currentPage)) "" 0
              (List.length (segments (name currentPage)))) as [P [L I]].
  cbn [map label path isLast]. rewrite P, L, I.
  rewrite loopPaths_all_prefixes. repeat split.
  f_equal. apply map_ext_in. intros k Hk. apply in_seq in Hk.
  destruct (Nat.eqb_spec k (List.length (segments (name currentPage)) - 1));
    destruct (Nat.eqb_spec (S k) (List.length (segments (name currentPage))));
    try reflexivity; lia.
Qed.

Lemma breadcrumb_follows_segments_witness :
  map label (breadcrumbItems (pg 3 "/a/b/c")) = ["root"; "a"; "b"; "c"]
  /\ map path (breadcrumbItems (pg 3 "/a/b/c")) = ["/"; "/a"; "/a/b"; "/a/b/c"]
  /\ map isLast (breadcrumbItems (pg 3 "/a/b/c")) = [false; false; false; true].
Proof.
  apply (breadcrumb_follows_segments (pg 3 "/a/b/c")). discriminate.
Defined.

Lemma last_map {A B : Type} (f : A -> B) (l : list A) (d : A) :
  last (map f l) (f d) = f (last l d).
Proof.
  induction l as [|x l IH]; [reflexivity|].
  destruct l; [reflexivity|exact IH].
Qed.

Lemma last_map_seq {B : Type} (f : nat -> B) (a n : nat) (d : B) :
  last (map f (seq a (S n))) d = f (a + n).
Proof. rewrite seq_S, map_app. cbn [map]. now rewrite last_last. Qed.

(** X16: for a parsed page with a valid path and no repeated slash in it,
    the last item of the breadcrumb carries the derived name of the page
    as its label and the path of the page as its path, and is marked as
    last. *)
Theorem breadcrumb_ends_on_the_page (currentPage : MyPage) :
  parsed currentPage ->
  validPath (name currentPage) = true ->
  noInternalEmptySegment (name currentPage) = true ->
  name currentPage <> "/" ->
  last (breadcrumbItems currentPage) (mkItem "" "" false)
  = mkItem (My.name (my currentPage)) (name currentPage) true.
Proof.
  intros Hp Hv Hn Hroot.
  rewrite (breadcrumbItems_not_root _ Hroot).
  pose proof (stripSlashes_valid _ Hv) as V.
  assert (Hstrip : stripSlashes (name currentPage) <> "").
  { intros E. rewrite E in V. simpl in V. now elim Hroot. }
  assert (Hsegs : segments (name currentPage)
                  = split "/" (stripSlashes (name currentPage))).
  { rewrite <- segments_stripSlashes. unfold segments.
    apply filter_truthy_id. unfold noInternalEmptySegment in Hn. cbv zeta in Hn.
    apply orb_true_iff in Hn. destruct Hn as [Hn|Hn]; [|exact Hn].
    destruct (stripSlashes (name currentPage)); [now elim Hstrip|discriminate]. }
  assert (Hmy : my currentPage
                = fromSegments (split "/" (stripSlashes (name currentPage))))
    by (unfold parsed in Hp; rewrite Hp at 1; apply getMyPageSingle_my).
  rewrite Hmy, Hsegs.
  pose proof (join_split (stripSlashes (name currentPage))) as J.
  set (segs := split "/" (stripSlashes (name currentPage))) in *.
  destruct (pushSegments_fields segs "" 0 (List.length segs)) as [P [L I]].
  rewrite loopPaths_all_prefixes in P.
  set (ps := pushSegments "" 0 (List.length segs) segs) in *.
  destruct segs as [|x l] eqn:E; [exfalso; exact (split_not_nil _ _ E)|].
  rewrite <- E in *.
  assert (Hlen : List.length segs = S (List.length l)) by (now rewrite E).
  assert (Hps : ps <> []).
  { intros N. rewrite N in L. rewrite E in L. discriminate L. }
  assert (Hlast : last (mkItem "root" "/" false :: ps) (mkItem "" "" false)
                  = last ps (mkItem "" "" false))
    by (destruct ps; [now elim Hps|reflexivity]).
  rewrite Hlast.
  pose proof (last_map label ps (mkItem "" "" false)) as A1.
  pose proof (last_map path ps (mkItem "" "" false)) as A2.
  pose proof (last_map isLast ps (mkItem "" "" false)) as A3.
  rewrite L in A1. rewrite P, Hlen, last_map_seq in A2.
  rewrite I, Hlen, last_map_seq in A3.
  cbn [label path isLast] in A1, A2, A3.
  destruct (last ps (mkItem "" "" false)) as [lb pt il].
  cbn [label path isLast] in A1, A2, A3. subst lb pt il.
  unfold fromSegments. cbv beta iota delta [My.name]. f_equal.
  - replace (1 + List.length l) with (List.length segs) by lia.
    rewrite firstn_all, J. exact V.
  - apply Nat.eqb_eq. lia.
Qed.

Lemma breadcrumb_ends_on_the_page_witness :
  last (breadcrumbItems (pg 3 "/a/b/c")) (mkItem "" "" false)
  = mkItem "c" "/a/b/c" true.
Proof.
  apply (breadcrumb_ends_on_the_page (pg 3 "/a/b/c")).
  - reflexivity.
  - reflexivity.
  - reflexivity.
  - discriminate.
Defined.

Lemma nth_error_map_seq {B : Type} (f : nat -> B) :
  forall (n a k : nat) (y : B),
    nth_error (map f (seq a n)) k = Some y -> k < n /\ y = f (a + k).
Proof.
  induction n as [|n IH]; intros a k y H.
  - destruct k; discriminate H.
  - destruct k as [|k]; cbn in H.
    + injection H as <-. split; [lia|]. f_equal. lia.
    + apply IH in H. destruct H as [Hk ->]. split; [lia|]. f_equal. lia.
Qed.

(** The items of a breadcrumb that are not the last one: the root and the
    ancestors of the path. *)
Lemma breadcrumb_links (currentPage : MyPage) (item : BreadcrumbItem) :
  In item (breadcrumbItems currentPage) ->
  isLast item = false ->
  path item = "/" \/ In (path item) (ancestorPaths (name currentPage)).
Proof.
  intros Hin Hlast.
  destruct (String.eqb_spec (name currentPage) "/") as [E|N].
  - unfold breadcrumbItems in Hin. rewrite E in Hin. cbn in Hin.
    destruct Hin as [<-|[]]. discriminate Hlast.
  - rewrite (breadcrumbItems_not_root _ N) in Hin.
    destruct Hin as [<-|Hin]; [now left|]. right.
    set (segs := segments (name currentPage)) in *.
    destruct (pushSegments_fields segs "" 0 (List.length segs)) as [P [_ I]].
    rewrite loopPaths_all_prefixes in P.
    apply In_nth_error in Hin. destruct Hin as [k Hk].
    pose proof (map_nth_error path _ _ Hk) as Hp.
    pose proof (map_nth_error isLast _ _ Hk) as Hi.
    rewrite P in Hp. rewrite I in Hi.
    apply nth_error_map_seq in Hp. destruct Hp as [Hlt Hpath].
    apply nth_error_map_seq in Hi. destruct Hi as [_ Hil].
    rewrite Hlast in Hil. symmetry in Hil. apply Nat.eqb_neq in Hil.
    unfold ancestorPaths. fold segs. cbv zeta. rewrite Hpath.
    apply in_map_iff. exists (1 + k). split; [reflexivity|].
    apply in_seq. simpl in *. lia.
Qed.

(** X17: after a rename that goes through, every link of the breadcrumb of
    the renamed page, the root apart, points at a path that a page of the
    collection had or that the rename created a page for. *)
Theorem rename_covers_breadcrumb (newPath : string)
  (currentPage renamed : MyPage) (allPages : list MyPage) (ed : Editor)
  (item : BreadcrumbItem) :
  name currentPage <> "/" ->
  trim newPath <> "" ->
  trim newPath <> name currentPage ->
  find (fun p : MyPage => name p =? normalizedTarget newPath) allPages = None ->
  name renamed = normalizedTarget newPath ->
  In item (breadcrumbItems renamed) ->
  isLast item = false ->
  path item = "/"
  \/ (exists p : MyPage, In p allPages /\ name p = path item)
  \/ In (CreatePage (path item))
        (effects (handleRename (Some newPath) currentPage allPages ed)).
Proof.
  intros Hroot H1 H2 Hfind Hname Hin Hlast.
  destruct (breadcrumb_links renamed item Hin Hlast) as [E|Ha]; [now left|].
  right. rewrite Hname in Ha.
  destruct (find (fun p : MyPage => name p =? path item) allPages) as [p|] eqn:F.
  - left. exists p. now apply find_some_name.
  - right. apply find_none_missingIn in F.
    destruct (handleRename_success _ _ _ ed Hroot H1 H2 Hfind) as [ed' E].
    rewrite E, loopPaths_ancestorPaths. right.
    apply in_or_app. left. apply in_map, filter_In. now split.
Qed.

Lemma rename_covers_breadcrumb_witness :
  path (mkItem "x" "/x" false) = "/"
  \/ (exists p : MyPage,
        In p [pg 0 "/"; pg 1 "/a"; pg 2 "/a/c"]
        /\ name p = path (mkItem "x" "/x" false))
  \/ In (CreatePage (path (mkItem "x" "/x" false)))
        (effects (handleRename (Some "/x/y") (pg 1 "/a")
                    [pg 0 "/"; pg 1 "/a"; pg 2 "/a/c"]
                    (editorOf [pg 0 "/"; pg 1 "/a"; pg 2 "/a/c"]))).
Proof.
  apply (rename_covers_breadcrumb "/x/y" (pg 1 "/a") (pg 1 "/x/y")
           [pg 0 "/"; pg 1 "/a"; pg 2 "/a/c"]
           (editorOf [pg 0 "/"; pg 1 "/a"; pg 2 "/a/c"])
           (mkItem "x" "/x" false)).
  - discriminate.
  - discriminate.
  - discriminate.
  - reflexivity.
  - reflexivity.
  - vm_compute. right. now left.
  - reflexivity.
Defined.

Lemma join_firstn_skipn (sep : string) :
  forall (l : list string) (k : nat),
    0 < k -> k < List.length l ->
    join sep l = join sep (firstn k l) ++ sep ++ join sep (skipn k l).
Proof.
  induction l as [|x l IH]; intros k H0 Hk; [simpl in Hk; lia|].
  destruct k as [|k]; [lia|].
  destruct l as [|y l]; [simpl in Hk; lia|].
  destruct k as [|k].
  - reflexivity.
  - change (join sep (x :: y :: l)) with (x ++ sep ++ join sep (y :: l)).
    rewrite (IH (S k)) by (simpl in *; lia).
    change (firstn (S (S k)) (x :: y :: l)) with (x :: firstn (S k) (y :: l)).
    change (skipn (S (S k)) (x :: y :: l)) with (skipn (S k) (y :: l)).
    change (firstn (S k) (y :: l)) with (y :: firstn k l).
    change (join sep (x :: y :: firstn k l))
      with (x ++ sep ++ join sep (y :: firstn k l)).
    now rewrite !append_assoc.
Qed.

(** X18: for a page of the collection with a valid path and no repeated
    slash in it, a click on an item of its breadcrumb that is not the last
    one, when a page has the path of the item, navigates to that page, and
    the current page is one of the descendants of that page: the links of
    the breadcrumb lead to ancestors. *)
Theorem breadcrumb_click_leads_to_ancestor (currentPage target : MyPage)
  (allPages : list MyPage) (item : BreadcrumbItem) (ed : Editor) :
  validPath (name currentPage) = true ->
  noInternalEmptySegment (name currentPage) = true ->
  In currentPage allPages ->
  In item (breadcrumbItems currentPage) ->
  isLast item = false ->
  find (fun p : MyPage => name p =? path item) allPages = Some target ->
  id currentPage <> id target ->
  effects (breadcrumbClick allPages item ed) = [SetCurrentPage (id target)]
  /\ In currentPage (findAllChildPages target allPages).
Proof.
  intros Hv Hn Hcur Hin Hlast F Hid.
  split; [unfold breadcrumbClick; now rewrite F, Hlast|].
  pose proof (find_some_name _ _ _ F) as [_ Hname].
  assert (Hroot : name currentPage <> "/").
  { intros E. unfold breadcrumbItems in Hin. rewrite E in Hin. cbn in Hin.
    destruct Hin as [<-|[]]. discriminate Hlast. }
  apply findAllChildPages_In. split; [exact Hcur|]. split; [exact Hid|].
  destruct (String.eqb_spec (currentPagePath target) "") as [E|N];
    [right; now split|].
  left.
  destruct (breadcrumb_links _ _ Hin Hlast) as [Hp|Hp].
  { exfalso. apply N. unfold currentPagePath. now rewrite Hname, Hp. }
  unfold ancestorPaths in Hp. cbv zeta in Hp. apply in_map_iff in Hp.
  destruct Hp as [k [Hk Hrange]]. apply in_seq in Hrange.
  pose proof (stripSlashes_valid _ Hv) as V.
  assert (Hstrip : stripSlashes (name currentPage) <> "").
  { intros E. rewrite E in V. simpl in V. now elim Hroot. }
  assert (Hsegs : segments (name currentPage)
                  = split "/" (stripSlashes (name currentPage))).
  { rewrite <- segments_stripSlashes. unfold segments.
    apply filter_truthy_id. unfold noInternalEmptySegment in Hn. cbv zeta in Hn.
    apply orb_true_iff in Hn. destruct Hn as [Hn|Hn]; [|exact Hn].
    destruct (stripSlashes (name currentPage)); [now elim Hstrip|discriminate]. }
  pose proof (join_split (stripSlashes (name currentPage))) as J.
  rewrite <- Hsegs in J.
  rewrite (join_firstn_skipn "/" _ k) in J by lia.
  assert (Ecpp : currentPagePath target
                 = join "/" (firstn k (segments (name currentPage)))).
  { unfold currentPagePath in *. rewrite Hname, <- Hk in *.
    destruct (String.eqb_spec
                ("/" ++ join "/" (firstn k (segments (name currentPage)))) "/");
      [now elim N|reflexivity]. }
  assert (Hs1 : slice1 (name currentPage) = stripSlashes (name currentPage)).
  { pose proof (f_equal slice1 V) as Q. cbn [append slice1] in Q.
    now symmetry. }
  rewrite Ecpp, Hs1, <- J.
  unfold startsWith.
  replace (join "/" (firstn k (segments (name currentPage))) ++ "/"
           ++ join "/" (skipn k (segments (name currentPage))))
    with ((join "/" (firstn k (segments (name currentPage))) ++ "/")
          ++ join "/" (skipn k (segments (name currentPage))))
    by (now rewrite append_assoc).
  apply prefix_append.
Qed.

Lemma breadcrumb_click_leads_to_ancestor_witness :
  effects (breadcrumbClick [pg 0 "/"; pg 1 "/a"; pg 2 "/a/b"]
             (mkItem "a" "/a" false) (editorOf [pg 0 "/"; pg 1 "/a"; pg 2 "/a/b"]))
  = [SetCurrentPage 1]
  /\ In (pg 2 "/a/b")
       (findAllChildPages (pg 1 "/a") [pg 0 "/"; pg 1 "/a"; pg 2 "/a/b"]).
Proof.
  apply (breadcrumb_click_leads_to_ancestor (pg 2 "/a/b") (pg 1 "/a")).
  - reflexivity.
  - reflexivity.
  - right; right; now left.
  - vm_compute. right. now left.
  - reflexivity.
  - reflexivity.
  - discriminate.
Defined.

(* ================================================================= *)
(** ** The keyboard shortcuts *)

Lemma handleAdd_effects_shape (answer : option string) (currentPage : MyPage)
  (allPages : list MyPage) (ed : Editor) (e : Effect) :
  In e (effects (handleAdd answer currentPage allPages ed)) ->
  match e with
  | RenamePage _ _ | DeletePage _ | Confirm _ => False
  | Alert _ => e = AlreadyExistsName
  | _ => True
  end.
Proof.
  destruct answer as [pageName|].
  2:{ rewrite (handleAdd_ignored None _ _ _ I). cbn [effects].
      intros [<-|[]]. exact I. }
  destruct (String.eqb_spec (trim pageName) "") as [E|E].
  { rewrite (handleAdd_ignored (Some pageName) _ _ _ E). cbn [effects].
    intros [<-|[]]. exact I. }
  destruct (find (fun p : MyPage =>
                    name p =? candidatePath currentPage pageName) allPages)
    as [q|] eqn:F.
  - rewrite (handleAdd_occupied _ _ q _ _ E F). cbn [effects].
    intros [<-|[<-|[]]]; [exact I|reflexivity].
  - destruct (handleAdd_success _ _ _ ed E F) as [i Hs]. rewrite Hs.
    cbn [effects]. intros [<-|[<-|[<-|[]]]]; exact I.
Qed.

(** X19: outside keyboard mode a key press other than Cmd+K or Ctrl+K does
    nothing: the default is not prevented, the mode stays off and the editor
    is not touched; and on the root page no key press, in any mode, renames
    or deletes a page or even raises a refusal: the most it does is add a
    page. *)
Theorem shortcuts_are_gated (event : KeyboardEvent) (keyboardMode : bool)
  (answer : option string) (confirmed : bool)
  (currentPage : MyPage) (allPages : list MyPage) (ed : Editor) :
  ((metaKey event || ctrlKey event) && (key event =? "k") = false ->
   keyboardMode = false ->
   controlsKeyDown event keyboardMode answer confirmed currentPage allPages
   = mkControlsOutcome false false (ret tt))
  /\ (name currentPage = "/" ->
      forall e : Effect,
        In e (effects
                (clicked
                   (controlsKeyDown event keyboardMode answer confirmed
                      currentPage allPages) ed)) ->
        match e with
        | RenamePage _ _ | DeletePage _ | Confirm _ => False
        | Alert _ => e = AlreadyExistsName
        | _ => True
        end).
Proof.
  split.
  - intros Hk Hm. unfold controlsKeyDown. now rewrite Hk, Hm.
  - intros Hroot e. unfold controlsKeyDown. cbv zeta. rewrite Hroot.
    change ("/" =? "/") with true. cbn [negb].
    destruct ((metaKey event || ctrlKey event) && (key event =? "k"));
      [intros []|].
    destruct keyboardMode; cbn [negb clicked]; [|intros []].
    destruct (toLowerCase (key event) =? "c").
    { cbn [clicked]. apply handleAdd_effects_shape. }
    destruct (toLowerCase (key event) =? "r"); [intros []|].
    destruct (toLowerCase (key event) =? "d"); [intros []|].
    destruct (toLowerCase (key event) =? "escape"); intros [].
Qed.

Lemma shortcuts_are_gated_witness :
  controlsKeyDown (mkKeyboardEvent false false "d") false None true
    (pg 1 "/a") [pg 0 "/"; pg 1 "/a"]
  = mkControlsOutcome false false (ret tt).
Proof.
  apply (proj1 (shortcuts_are_gated (mkKeyboardEvent false false "d") false
                  None true (pg 1 "/a") [pg 0 "/"; pg 1 "/a"]
                  (editorOf [pg 0 "/"; pg 1 "/a"]))); reflexivity.
Defined.

(* ================================================================= *)
(** ** The search of the command palette *)

Lemma Subsequence_tail (c : ascii) (q t : string) :
  Subsequence (String c q) t -> Subsequence q t.
Proof.
  intros H. remember (String c q) as cq eqn:E. revert c q E.
  induction H as [t|d q' t H IH|d q' t H IH]; intros c q E.
  - discriminate E.
  - injection E as -> ->. now apply sub_skip.
  - apply sub_skip. now apply (IH c).
Qed.

Lemma Subsequence_cons (c d : ascii) (q t : string) :
  Subsequence (String d q) (String c t)
  <-> (if (c =? d)%char then Subsequence q t else Subsequence (String d q) t).
Proof.
  destruct (Ascii.eqb_spec c d) as [->|N]; split; intros H.
  - inversion H; subst; [assumption|now apply (Subsequence_tail d)].
  - now apply sub_take.
  - inversion H; subst; [now elim N|assumption].
  - now apply sub_skip.
Qed.

Lemma Subsequence_empty_text (q : string) : Subsequence q "" <-> q = "".
Proof.
  split; intros H; [now inversion H|subst; constructor].
Qed.

(** The loop finds the query when it is there at all, never lowers the
    score, and raises it by three halves at least for a query it finds. *)
Lemma searchLoop_spec :
  forall (text : string) (previous : option ascii) (query : string)
         (score : Q) (consecutive : nat),
    (snd (searchLoop text previous query score consecutive) = ""
     <-> Subsequence query text)
    /\ (score <= fst (searchLoop text previous query score consecutive))%Q
    /\ (query <> "" ->
        snd (searchLoop text previous query score consecutive) = "" ->
        (score + (3 # 2)
         <= fst (searchLoop text previous query score consecutive))%Q).
Proof.
  induction text as [|t text IH]; intros previous query score consecutive.
  - destruct query as [|q query]; cbn [searchLoop fst snd].
    + split; [split; intros _; [constructor|reflexivity]|].
      split; [lra|]. intros H. now elim H.
    + rewrite Subsequence_empty_text. split; [tauto|].
      split; [lra|]. intros _ H. discriminate H.
  - destruct query as [|q query]; cbn [searchLoop fst snd].
    + split; [split; intros _; [constructor|reflexivity]|].
      split; [lra|]. intros H. now elim H.
    + rewrite Subsequence_cons. destruct (t =? q)%char.
      * cbv zeta.
        set (bonus := match previous with
                      | None => _
                      | Some p => _
                      end).
        assert (Hb : (score + (3 # 2) <= bonus)%Q).
        { assert (Hc : (1 <= inject_Z (Z.of_nat (S consecutive)))%Q).
          { change 1%Q with (inject_Z 1). rewrite <- Zle_Qle. lia. }
          unfold bonus. destruct previous as [p|];
            [destruct ((p =? "/")%char || (p =? " ")%char)|]; lra. }
        destruct (IH (Some t) query bonus (S consecutive)) as [A [B C]].
        split; [exact A|]. split; [lra|]. intros _ _. lra.
      * destruct (IH (Some t) (String q query) score 0) as [A [B C]].
        split; [exact A|]. split; [exact B|]. intros _ H. apply C; [discriminate|exact H].
Qed.

(** The two outcomes of [getSearchScore] on a query that is not empty. *)
Lemma getSearchScore_cases (query text : string) :
  query <> "" ->
  (Subsequence (toLowerCase query) (toLowerCase text)
   /\ (3 # 2 <= getSearchScore query text)%Q)
  \/ (~ Subsequence (toLowerCase query) (toLowerCase text)
      /\ getSearchScore query text = noMatch).
Proof.
  intros Hq. unfold getSearchScore.
  apply truthy_true in Hq. rewrite Hq. cbn [negb]. cbv zeta.
  assert (Hl : toLowerCase query <> "")
    by (destruct query; [discriminate Hq|discriminate]).
  destruct (searchLoop_spec (toLowerCase text) None (toLowerCase query) 0%Q 0)
    as [A [B C]].
  destruct (searchLoop (toLowerCase text) None (toLowerCase query) 0 0)
    as [score rest].
  cbn [fst snd] in A, B, C. destruct rest as [|r rest].
  - left. split; [now apply A|]. specialize (C Hl eq_refl). lra.
  - right. split; [|reflexivity]. intros H. apply A in H. discriminate H.
Qed.

(** X20: an empty query scores zero; any other query scores minus one
    exactly when its characters, case apart, do not occur in order in the
    text, and three halves at least when they do. *)
Theorem getSearchScore_matches_subsequences (query text : string) :
  getSearchScore "" text = 0%Q
  /\ (query <> "" ->
      (getSearchScore query text = noMatch
       <-> ~ Subsequence (toLowerCase query) (toLowerCase text))
      /\ (Subsequence (toLowerCase query) (toLowerCase text) ->
          (3 # 2 <= getSearchScore query text)%Q)).
Proof.
  split; [reflexivity|]. intros Hq.
  destruct (getSearchScore_cases query text Hq) as [[S L]|[N E]].
  - split; [|intros _; exact L]. split; [|tauto].
    intros E. rewrite E in L. unfold noMatch in L. exfalso.
    apply (Qle_not_lt _ _ L). reflexivity.
  - split; [tauto|]. intros S. now elim N.
Qed.

Lemma getSearchScore_matches_subsequences_witness :
  (getSearchScore "PA" "/proj/a" = noMatch
   <-> ~ Subsequence (toLowerCase "PA") (toLowerCase "/proj/a"))
  /\ (Subsequence (toLowerCase "PA") (toLowerCase "/proj/a") ->
      (3 # 2 <= getSearchScore "PA" "/proj/a")%Q).
Proof.
  apply (proj2 (getSearchScore_matches_subsequences "PA" "/proj/a")).
  discriminate.
Defined.

Lemma In_firstn {A : Type} (n : nat) (l : list A) (x : A) :
  In x (firstn n l) -> In x l.
Proof.
  intros H. rewrite <- (firstn_skipn n l). apply in_or_app. now left.
Qed.

Lemma length_filter_le {A : Type} (f : A -> bool) (l : list A) :
  List.length (filter f l) <= List.length l.
Proof.
  induction l as [|x l IH]; [apply Nat.le_refl|].
  simpl. destruct (f x); simpl; lia.
Qed.

(** The sum of the two scores of a page is positive exactly when the query
    is found in its path or in its derived name. *)
Lemma score_positive (query : string) (p : MyPage) :
  query <> "" ->
  isPositive (getSearchScore query (name p)
              + getSearchScore query (My.name (my p)))%Q = true
  <-> Subsequence (toLowerCase query) (toLowerCase (name p))
      \/ Subsequence (toLowerCase query) (toLowerCase (My.name (my p))).
Proof.
  intros Hq. unfold isPositive. rewrite negb_true_iff.
  destruct (getSearchScore_cases query (name p) Hq) as [[S1 L1]|[N1 E1]];
    destruct (getSearchScore_cases query (My.name (my p)) Hq)
      as [[S2 L2]|[N2 E2]];
    try rewrite E1 in *; try rewrite E2 in *; unfold noMatch in *.
  - split; [tauto|]. intros _.
    destruct (Qle_bool _ 0) eqn:B; [|reflexivity].
    apply Qle_bool_iff in B. lra.
  - split; [tauto|]. intros _.
    destruct (Qle_bool _ 0) eqn:B; [|reflexivity].
    apply Qle_bool_iff in B. lra.
  - split; [tauto|]. intros _.
    destruct (Qle_bool _ 0) eqn:B; [|reflexivity].
    apply Qle_bool_iff in B. lra.
  - split; [|tauto]. intros B. discriminate B.
Qed.

(** X21: on a query that is not blank, the palette lists pages of the
    collection only, ten at most, each of them with the characters of the
    query occurring in order, case apart, in its path or in its derived
    name; and when the collection has ten pages at most, it lists every
    such page. On a blank query it lists the first ten pages. *)
Theorem palette_lists_matching_pages (query : string) (myPages : list MyPage) :
  (trim query = "" -> paletteFilteredPages query myPages = firstn 10 myPages)
  /\ List.length (paletteFilteredPages query myPages) <= 10
  /\ (trim query <> "" ->
      (forall p : MyPage,
         In p (paletteFilteredPages query myPages) ->
         In p myPages
         /\ (Subsequence (toLowerCase query) (toLowerCase (name p))
             \/ Subsequence (toLowerCase query) (toLowerCase (My.name (my p)))))
      /\ (List.length myPages <= 10 ->
          forall p : MyPage,
            In p myPages ->
            Subsequence (toLowerCase query) (toLowerCase (name p))
            \/ Subsequence (toLowerCase query) (toLowerCase (My.name (my p))) ->
            In p (paletteFilteredPages query myPages))).
Proof.
  split; [|split].
  - intros E. unfold paletteFilteredPages. now rewrite E.
  - unfold paletteFilteredPages.
    destruct (negb (truthy (trim query))); [apply firstn_le_length|].
    cbv zeta. rewrite length_map. apply firstn_le_length.
  - intros Ht.
    assert (Hq : query <> "") by (intros ->; now elim Ht).
    unfold paletteFilteredPages. apply truthy_true in Ht. rewrite Ht.
    cbn [negb]. cbv zeta.
    set (score := fun page : MyPage =>
                    (page,
                     (getSearchScore query (name page)
                      + getSearchScore query (My.name (my page)))%Q)).
    set (cmp := fun a b : MyPage * Q => numberSign (snd b - snd a)%Q).
    set (kept := filter (fun item : MyPage * Q => isPositive (snd item))
                   (map score myPages)).
    split.
    + intros p Hp. apply in_map_iff in Hp. destruct Hp as [[p' sc] [E Hp]].
      cbn [fst] in E. subst p'.
      apply In_firstn in Hp.
      apply (Permutation_in _ (Permutation_sym (sort_perm cmp kept))) in Hp.
      apply filter_In in Hp. destruct Hp as [Hm Hpos].
      apply in_map_iff in Hm. destruct Hm as [p' [E Hin]].
      unfold score in E. injection E as -> <-.
      split; [exact Hin|]. now apply (score_positive query p Hq).
    + intros Hlen p Hin Hsub.
      assert (Hk : List.length (sort cmp kept) <= 10).
      { rewrite <- (Permutation_length (sort_perm cmp kept)).
        unfold kept. pose proof (length_filter_le
                                   (fun item : MyPage * Q => isPositive (snd item))
                                   (map score myPages)) as L.
        rewrite length_map in L. lia. }
      rewrite (firstn_all2 _ Hk).
      apply in_map_iff. exists (score p). split; [reflexivity|].
      apply (Permutation_in _ (sort_perm cmp kept)).
      apply filter_In. split; [now apply in_map|].
      now apply (score_positive query p Hq).
Qed.

Lemma palette_lists_matching_pages_witness :
  paletteFilteredPages "  " [pg 0 "/"; pg 1 "/proj"; pg 2 "/a"]
  = firstn 10 [pg 0 "/"; pg 1 "/proj"; pg 2 "/a"].
Proof.
  apply (proj1 (palette_lists_matching_pages "  "
                  [pg 0 "/"; pg 1 "/proj"; pg 2 "/a"])).
  reflexivity.
Defined.

(* ================================================================= *)
(** ** A selection that no longer fits the list *)

(** X22: a selected index beyond the list of children is harmless: the
    right arrow then changes nothing, neither the state nor the editor; and
    in keyboard mode, with children to show, the reset of the selection
    always leaves an index inside the list, falling back to the first row
    when the remembered index is beyond it. *)
Theorem stale_selection_is_harmless (currentMyPage : MyPage)
  (myPages : list MyPage) (st : NavState) :
  (List.length (filteredPages currentMyPage myPages) <= selectedIndex st ->
   navState (navKeyDown true "ArrowRight" currentMyPage myPages st) = st
   /\ forall ed,
        run (navKeyDown true "ArrowRight" currentMyPage myPages st) ed
        = mkOutcome tt ed [])
  /\ (0 < List.length (filteredPages currentMyPage myPages) ->
      selectedIndex (resetSelection true currentMyPage myPages st)
      < List.length (filteredPages currentMyPage myPages)
      /\ (forall remembered,
            memoryGet (navigationMemory st) (currentPagePath currentMyPage)
            = Some remembered ->
            List.length (filteredPages currentMyPage myPages) <= remembered ->
            selectedIndex (resetSelection true currentMyPage myPages st) = 0)).
Proof.
  split.
  - intros Hge. unfold navKeyDown. cbn [negb String.eqb Ascii.eqb Bool.eqb].
    cbv zeta.
    assert (Hn : nth_error (filteredPages currentMyPage myPages)
                   (selectedIndex st) = None) by now apply nth_error_None.
    rewrite Hn.
    destruct (Nat.ltb 0 (List.length (filteredPages currentMyPage myPages)));
      now split.
  - intros Hpos. unfold resetSelection. cbv zeta. cbn [andb].
    apply Nat.ltb_lt in Hpos. rewrite Hpos. apply Nat.ltb_lt in Hpos.
    destruct (memoryGet (navigationMemory st) (currentPagePath currentMyPage))
      as [r|]; [|split; [exact Hpos|discriminate]].
    destruct (Nat.ltb_spec r (List.length (filteredPages currentMyPage myPages)))
      as [A|A]; cbn [selectedIndex].
    + split; [exact A|]. intros remembered E. injection E as <-. lia.
    + split; [exact Hpos|reflexivity].
Qed.

Lemma stale_selection_is_harmless_witness :
  selectedIndex
    (resetSelection true (pg 0 "/") [pg 0 "/"; pg 1 "/a"; pg 2 "/b"]
       (mkNavState 0 (memorySet memoryEmpty "" 7)))
  = 0.
Proof.
  assert (Hpos : 0 < List.length
                       (filteredPages (pg 0 "/") [pg 0 "/"; pg 1 "/a"; pg 2 "/b"]))
    by (vm_compute; lia).
  apply (proj2 (proj2 (stale_selection_is_harmless (pg 0 "/")
                         [pg 0 "/"; pg 1 "/a"; pg 2 "/b"]
                         (mkNavState 0 (memorySet memoryEmpty "" 7))) Hpos) 7).
  - reflexivity.
  - vm_compute. lia.
Defined.
